(** * LaterLink Saver: a shallow embedding of [src/app.js]

    The development follows the source file top to bottom: JavaScript
    strings and values, the regular expression of the video-id extractor
    and its backtracking matcher, the component's state, a small monad for
    the asynchronous handlers, the handlers themselves, and then the
    properties of the specification. *)

From Stdlib Require Import ZArith NArith Ascii String DecimalString.
From stdpp Require Import gmap list.

Local Open Scope nat_scope.
Set Warnings "-register-all".

(** ** JavaScript strings

    A JavaScript string is a sequence of UTF-16 code units; [length],
    [trim], [startsWith] and the regular expression engine (without the
    [u] flag) all work on code units. *)

Abbreviation jsstring := (list N).

(** An ASCII literal as a sequence of code units. *)
Definition u16 (s : string) : jsstring :=
  map N_of_ascii (list_ascii_of_string s).

Module Re.

(** ** Regular expressions, after ECMAScript's pattern semantics

    ECMAScript defines the meaning of a pattern by matchers in
    continuation-passing style: a matcher takes the current state and a
    continuation, and backtracks by trying its alternatives, in order,
    until the continuation succeeds.  The syntax below covers what
    [regExp] of [getYouTubeVideoId] uses. *)

Inductive Regex : Type :=
| Unit1 (p : N -> bool)          (* one code unit of a class: a literal, [.], [\w], [[^...]] *)
| Seq (r1 r2 : Regex)            (* r1 r2 *)
| Alt (r1 r2 : Regex)            (* r1|r2, left alternative first *)
| Star (p : N -> bool)           (* greedy [*] over a one-unit atom *)
| Group (n : nat) (r : Regex)    (* capturing parentheses number n *)
| Bol.                           (* ^ without the m flag *)

Record MatchState := mkMatchState {
  endIndex : nat;                (* units consumed so far *)
  rest : jsstring;               (* the input from endIndex on *)
  captures : gmap nat jsstring
}.

Definition Continuation := MatchState -> option MatchState.

Definition advance (x : MatchState) (r : jsstring) : MatchState :=
  mkMatchState (S (endIndex x)) r (captures x).

(** Greedy repetition of a one-unit atom: consume while possible, and on the
    way back offer every shorter repetition to the continuation. *)
Fixpoint repeat1 (p : N -> bool) (s : jsstring) (i : nat) (caps : gmap nat jsstring)
    (c : Continuation) : option MatchState :=
  match s with
  | u :: s' =>
      if p u then
        match repeat1 p s' (S i) caps c with
        | Some y => Some y
        | None => c (mkMatchState i s caps)
        end
      else c (mkMatchState i s caps)
  | [] => c (mkMatchState i [] caps)
  end.

Fixpoint matcher (r : Regex) (x : MatchState) (c : Continuation) : option MatchState :=
  match r with
  | Unit1 p =>
      match rest x with
      | u :: s' => if p u then c (advance x s') else None
      | [] => None
      end
  | Seq r1 r2 => matcher r1 x (fun y => matcher r2 y c)
  | Alt r1 r2 =>
      match matcher r1 x c with
      | Some y => Some y
      | None => matcher r2 x c
      end
  | Star p => repeat1 p (rest x) (endIndex x) (captures x) c
  | Group n r1 =>
      matcher r1 x (fun y =>
        c (mkMatchState (endIndex y) (rest y)
             (<[n := take (endIndex y - endIndex x) (rest x)]> (captures y))))
  | Bol => if Nat.eqb (endIndex x) 0 then c x else None
  end.

(** [RegExp.prototype.exec] without the [g] and [y] flags: the first start
    index, from 0 on, at which the pattern matches. *)
Fixpoint exec_from (r : Regex) (s : jsstring) (i : nat) : option MatchState :=
  match matcher r (mkMatchState i s ∅) Some with
  | Some y => Some y
  | None =>
      match s with
      | _ :: s' => exec_from r s' (S i)
      | [] => None
      end
  end.

Definition exec (r : Regex) (s : jsstring) : option MatchState :=
  exec_from r s 0.

(** *** Atoms *)

Definition is_line_terminator (u : N) : bool :=
  (N.eqb u 10 || N.eqb u 13 || N.eqb u 8232 || N.eqb u 8233)%bool.

(** [.] without the [s] flag. *)
Definition dot (u : N) : bool := negb (is_line_terminator u).

(** [\w] *)
Definition word_char (u : N) : bool :=
  ((N.leb 97 u && N.leb u 122) || (N.leb 65 u && N.leb u 90)
   || (N.leb 48 u && N.leb u 57) || N.eqb u 95)%bool.

(** [[^#&?]] *)
Definition not_delim (u : N) : bool :=
  negb (N.eqb u 35 || N.eqb u 38 || N.eqb u 63)%bool.

Definition chr (u : N) : Regex := Unit1 (N.eqb u).

(** A literal of at least one character, as the sequence of its units. *)
Fixpoint lits (u : N) (s : jsstring) : Regex :=
  match s with
  | [] => chr u
  | v :: s' => Seq (chr u) (lits v s')
  end.

Definition lit (s : string) : Regex :=
  match u16 s with
  | [] => Star (fun _ => false)
  | u :: s' => lits u s'
  end.

End Re.

Import Re.

(** ** The video-id extractor (app.js, lines 42-47) *)

(** The pattern, with blanks added between its parts:
    [^ .* ( youtu.be\/ | v\/ | u\/\w\/ | embed\/ | watch\?v= | &v= ) ( [^#&?]* ) .*] *)
Definition markers : Regex :=
  Alt (Seq (lit "youtu") (Seq (Unit1 dot) (lit "be/")))
 (Alt (lit "v/")
 (Alt (Seq (lit "u/") (Seq (Unit1 word_char) (lit "/")))
 (Alt (lit "embed/")
 (Alt (lit "watch?v=")
      (lit "&v="))))).

Definition tail : Regex := Seq (Group 2 (Star not_delim)) (Star dot).

Definition after_line : Regex := Seq (Group 1 markers) tail.

Definition regExp : Regex := Seq Bol (Seq (Star dot) after_line).

(** [url] is a string or [null]; [!url] holds of [null] and of the empty
    string.  [match[2]] is the second capture, which takes part in every
    match of [regExp] (lemma [regExp_group2] below). *)
Definition getYouTubeVideoId (url : option jsstring) : option jsstring :=
  match url with
  | None | Some [] => None
  | Some u =>
      match exec regExp u with
      | Some m =>
          match captures m !! 2 with
          | Some g => if Nat.eqb (length g) 11 then Some g else None
          | None => None
          end
      | None => None
      end
  end.


(** ** What the pattern computes, read off directly

    The functions below describe the match without the matcher; section
    [Extractor] proves that [getYouTubeVideoId] computes them. *)

(** [starts l s]: the rest of [s] after its prefix [l], if [l] is one. *)
Fixpoint starts (l s : jsstring) : option jsstring :=
  match l, s with
  | [], _ => Some s
  | a :: l', b :: s' => if N.eqb a b then starts l' s' else None
  | _ :: _, [] => None
  end.

(** The longest prefix of [s] whose units are all in the class [p]. *)
Fixpoint run_of (p : N -> bool) (s : jsstring) : jsstring :=
  match s with
  | u :: s' => if p u then u :: run_of p s' else []
  | [] => []
  end.

Definition after_youtu_be (s : jsstring) : option (nat * jsstring) :=
  match starts (u16 "youtu") s with
  | Some (d :: t) => if dot d then pair 9 <$> starts (u16 "be/") t else None
  | _ => None
  end.

Definition after_u (s : jsstring) : option (nat * jsstring) :=
  match starts (u16 "u/") s with
  | Some (w :: t) => if word_char w then pair 4 <$> starts (u16 "/") t else None
  | _ => None
  end.

Definition orelse {A} (a b : option A) : option A :=
  match a with Some x => Some x | None => b end.

(** The first alternative of the first group that matches at the head of
    [s]: the number of units it takes and what follows it. *)
Definition marker (s : jsstring) : option (nat * jsstring) :=
  orelse (after_youtu_be s)
 (orelse (pair 2 <$> starts (u16 "v/") s)
 (orelse (after_u s)
 (orelse (pair 6 <$> starts (u16 "embed/") s)
 (orelse (pair 8 <$> starts (u16 "watch?v=") s)
         (pair 3 <$> starts (u16 "&v=") s))))).

(** What follows the marker chosen by the greedy [^.*]: the one that starts
    latest on the first line. *)
Fixpoint last_marker (s : jsstring) : option jsstring :=
  match s with
  | u :: s' =>
      if dot u then orelse (last_marker s') (snd <$> marker s)
      else snd <$> marker s
  | [] => snd <$> marker []
  end.

Definition extract (u : jsstring) : option jsstring :=
  match last_marker u with
  | Some r => let g := run_of not_delim r in
              if Nat.eqb (length g) 11 then Some g else None
  | None => None
  end.

(** ** The recognised shapes, as a relation

    [is_marker mk]: [mk] is an instance of one alternative of the first
    group.  [recognized u id]: [id] is the segment that follows the latest
    marker on the first line of [u], it ends at a delimiter or at the end of
    [u], and it is 11 units long. *)

Inductive is_marker : jsstring -> Prop :=
| marker_youtu_be d : dot d = true -> is_marker (u16 "youtu" ++ d :: u16 "be/")
| marker_v : is_marker (u16 "v/")
| marker_u w : word_char w = true -> is_marker (u16 "u/" ++ w :: u16 "/")
| marker_embed : is_marker (u16 "embed/")
| marker_watch : is_marker (u16 "watch?v=")
| marker_amp_v : is_marker (u16 "&v=").

Definition one_line (s : jsstring) : Prop := Forall (fun u => dot u = true) s.

Definition marker_at (u pre mk r : jsstring) : Prop :=
  u = pre ++ mk ++ r /\ one_line pre /\ is_marker mk.

Definition latest (u pre : jsstring) : Prop :=
  forall pre' mk' r', marker_at u pre' mk' r' -> length pre' <= length pre.

Definition segment_end (r : jsstring) : Prop :=
  match r with
  | [] => True
  | d :: _ => not_delim d = false
  end.

Definition recognized (u id : jsstring) : Prop :=
  exists pre mk r,
    marker_at u pre mk (id ++ r) /\ latest u pre /\
    Forall (fun c => not_delim c = true) id /\ segment_end r /\
    length id = 11.

(** Two abbreviations used in the proofs about the first group. *)
Definition resume (x : MatchState) (c : Continuation) (v : nat * jsstring) :
    option MatchState :=
  c (mkMatchState (endIndex x + v.1) v.2 (captures x)).

Definition bind_marker (x : MatchState) (c : Continuation)
    (o : option (nat * jsstring)) : option MatchState :=
  match o with Some v => resume x c v | None => None end.


(** ** JavaScript values

    The values the handlers inspect: parsed JSON, and [undefined] for a
    missing property.  A number is carried as an integer (an array length,
    an HTTP status); a fractional JSON number is outside the model. *)

Inductive JsVal : Type :=
| JUndefined
| JNull
| JBool (b : bool)
| JNum (n : Z)
| JStr (s : jsstring)
| JArr (l : list JsVal)
| JObj (fields : list (jsstring * JsVal)).

(** A thrown value: every rejection and exception the handlers can meet is
    an [Error] object, of which [catch] reads the [message]. *)
Record JsError := mkError { message : jsstring }.

(** ToBoolean *)
Definition truthy (v : JsVal) : bool :=
  match v with
  | JUndefined | JNull => false
  | JBool b => b
  | JNum n => negb (Z.eqb n 0)
  | JStr s => match s with [] => false | _ => true end
  | JArr _ | JObj _ => true
  end.

Definition truthy_str (s : option jsstring) : bool :=
  match s with
  | Some (_ :: _) => true
  | _ => false
  end.

Definition decimal (n : Z) : jsstring := u16 (NilZero.string_of_int (Z.to_int n)).

Fixpoint join (sep : jsstring) (l : list jsstring) : jsstring :=
  match l with
  | [] => []
  | [s] => s
  | s :: l' => s ++ sep ++ join sep l'
  end.

(** The last field of that name, as [JSON.parse] keeps it; [undefined] when
    there is none. *)
Fixpoint lookup_field (k : jsstring) (fields : list (jsstring * JsVal)) : option JsVal :=
  match fields with
  | [] => None
  | (k', v) :: fs =>
      match lookup_field k fs with
      | Some w => Some w
      | None => if decide (k' = k) then Some v else None
      end
  end.

Definition field (k : jsstring) (fields : list (jsstring * JsVal)) : JsVal :=
  default JUndefined (lookup_field k fields).

(** Number::toString of an integer.  Up to 2^53 in magnitude the digits
    are those of the integer; beyond, the engine prints the shortest digits
    that read back as the same double, in exponent form from 10^21 on: this
    is the engine's [num_str]. *)
Definition number_to_string (num_str : Z -> jsstring) (n : Z) : jsstring :=
  if Z.leb (Z.abs n) 9007199254740992 then decimal n else num_str n.

(** The TypeError of ToPrimitive. *)
Definition cannot_convert : JsError :=
  mkError (u16 "Cannot convert object to primitive value").

(** ToString, as a template literal applies it.  An own property
    [toString] of a parsed object is a JSON value, never a function:
    ToPrimitive passes it over and, the inherited [valueOf] returning the
    object itself, has nothing left to call and throws; without such a
    property the inherited [toString] answers.  An array is joined, its
    elements converted from left to right. *)
Fixpoint to_string (num_str : Z -> jsstring) (v : JsVal) {struct v} : JsError + jsstring :=
  match v with
  | JUndefined => inr (u16 "undefined")
  | JNull => inr (u16 "null")
  | JBool true => inr (u16 "true")
  | JBool false => inr (u16 "false")
  | JNum n => inr (number_to_string num_str n)
  | JStr s => inr s
  | JArr l =>
      match
        (fix elements (l : list JsVal) : JsError + list jsstring :=
           match l with
           | [] => inr []
           | x :: l' =>
               match (match x with
                      | JUndefined | JNull => inr []
                      | _ => to_string num_str x
                      end) with
               | inl e => inl e
               | inr s =>
                   match elements l' with
                   | inl e => inl e
                   | inr ss => inr (s :: ss)
                   end
               end
           end) l
      with
      | inl e => inl e
      | inr ss => inr (join (u16 ",") ss)
      end
  | JObj fs =>
      match lookup_field (u16 "toString") fs with
      | Some _ => inl cannot_convert
      | None => inr (u16 "[object Object]")
      end
  end.

(** [v > 0].  An object or an array is first converted as above, which may
    throw; "[object Object]" is not a number.  The conversion of any other
    string to a number is the engine's and is taken as a parameter:
    [str_gt0 s] says whether the number [s] converts to is positive. *)
Definition gt_zero (num_str : Z -> jsstring) (str_gt0 : jsstring -> bool) (v : JsVal) :
    JsError + bool :=
  match v with
  | JUndefined | JNull => inr false
  | JBool b => inr b
  | JNum n => inr (Z.ltb 0 n)
  | JStr s => inr (str_gt0 s)
  | JArr _ =>
      match to_string num_str v with
      | inl e => inl e
      | inr s => inr (str_gt0 s)
      end
  | JObj _ =>
      match to_string num_str v with
      | inl e => inl e
      | inr _ => inr false
      end
  end.

(** [Cannot read properties of null (reading 'k')] *)
Definition type_error (v : JsVal) (k : jsstring) : JsError :=
  mkError (u16 "Cannot read properties of "
           ++ match v with JNull => u16 "null" | _ => u16 "undefined" end
           ++ u16 " (reading '" ++ k ++ u16 "')").

(** [v.k] for a property name [k] that is an identifier (none of the names
    the handlers read is an index or an inherited property). *)
Definition get (v : JsVal) (k : string) : JsError + JsVal :=
  match v with
  | JUndefined | JNull => inl (type_error v (u16 k))
  | JObj fs => inr (field (u16 k) fs)
  | JArr l => inr (if decide (k = "length"%string) then JNum (Z.of_nat (length l)) else JUndefined)
  | JStr s => inr (if decide (k = "length"%string) then JNum (Z.of_nat (length s)) else JUndefined)
  | JBool _ | JNum _ => inr JUndefined
  end.

(** [v[0]] *)
Definition get0 (v : JsVal) : JsError + JsVal :=
  match v with
  | JUndefined | JNull => inl (type_error v (u16 "0"))
  | JObj fs => inr (field (u16 "0") fs)
  | JArr l => inr (match l with x :: _ => x | [] => JUndefined end)
  | JStr s => inr (match s with c :: _ => JStr [c] | [] => JUndefined end)
  | JBool _ | JNum _ => inr JUndefined
  end.

(** [v?.k] *)
Definition get_opt (v : JsVal) (k : string) : JsVal :=
  match get v k with
  | inl _ => JUndefined
  | inr w => w
  end.

(** [a || b] *)
Definition js_or (a b : JsVal) : JsVal := if truthy a then a else b.

(** [String.prototype.startsWith] *)
Definition startsWith (s l : jsstring) : bool :=
  match starts l s with Some _ => true | None => false end.

(** [String.prototype.trim]: white space and line terminators. *)
Definition is_space (u : N) : bool :=
  (N.eqb u 9 || N.eqb u 10 || N.eqb u 11 || N.eqb u 12 || N.eqb u 13
   || N.eqb u 32 || N.eqb u 160 || N.eqb u 5760
   || (N.leb 8192 u && N.leb u 8202) || N.eqb u 8232 || N.eqb u 8233
   || N.eqb u 8239 || N.eqb u 8287 || N.eqb u 12288 || N.eqb u 65279)%bool.

Fixpoint trimStart (s : jsstring) : jsstring :=
  match s with
  | u :: s' => if is_space u then trimStart s' else s
  | [] => []
  end.

Definition trim (s : jsstring) : jsstring :=
  reverse (trimStart (reverse (trimStart s))).

(** [!s.trim()] *)
Definition blank (s : jsstring) : bool :=
  match trim s with [] => true | _ => false end.

(** A template literal's hole filled with a string or [null]. *)
Definition hole (s : option jsstring) : jsstring :=
  match s with
  | Some t => t
  | None => u16 "null"
  end.

(** ** The component's state (app.js, lines 51-65)

    [summaries] and [isSummarizing] are objects used as maps from document
    ids to values; a missing key reads as [undefined].  The ids are the
    store's document ids, none of which is the name of an inherited
    property of an object. *)

Inductive Firestore := firestoreDb.

(** What [handleAddLink] writes; [addedAt] is the server's timestamp. *)
Record LinkFields := mkLinkFields {
  f_url : jsstring;
  f_title : jsstring;
  f_videoId : option jsstring;
  f_userId : option jsstring;
  f_summary : JsVal
}.

Record Link := mkLink {
  id : jsstring;
  data : LinkFields
}.

Record AppState := mkAppState {
  db : option Firestore;
  userId : option jsstring;
  isAuthReady : bool;
  links : list Link;
  newLinkUrl : jsstring;
  newLinkTitle : jsstring;
  isLoading : bool;
  error : jsstring;
  showAddForm : bool;
  summaries : gmap jsstring JsVal;
  isSummarizing : gmap jsstring bool
}.

Definition setLinks (v : list Link) (s : AppState) : AppState :=
  mkAppState (db s) (userId s) (isAuthReady s) v (newLinkUrl s) (newLinkTitle s)
    (isLoading s) (error s) (showAddForm s) (summaries s) (isSummarizing s).
Definition setNewLinkUrl (v : jsstring) (s : AppState) : AppState :=
  mkAppState (db s) (userId s) (isAuthReady s) (links s) v (newLinkTitle s)
    (isLoading s) (error s) (showAddForm s) (summaries s) (isSummarizing s).
Definition setNewLinkTitle (v : jsstring) (s : AppState) : AppState :=
  mkAppState (db s) (userId s) (isAuthReady s) (links s) (newLinkUrl s) v
    (isLoading s) (error s) (showAddForm s) (summaries s) (isSummarizing s).
Definition setIsLoading (v : bool) (s : AppState) : AppState :=
  mkAppState (db s) (userId s) (isAuthReady s) (links s) (newLinkUrl s) (newLinkTitle s)
    v (error s) (showAddForm s) (summaries s) (isSummarizing s).
Definition setError (v : jsstring) (s : AppState) : AppState :=
  mkAppState (db s) (userId s) (isAuthReady s) (links s) (newLinkUrl s) (newLinkTitle s)
    (isLoading s) v (showAddForm s) (summaries s) (isSummarizing s).
Definition setShowAddForm (v : bool) (s : AppState) : AppState :=
  mkAppState (db s) (userId s) (isAuthReady s) (links s) (newLinkUrl s) (newLinkTitle s)
    (isLoading s) (error s) v (summaries s) (isSummarizing s).
(** The two maps are set through an updater, [setX(prev => ...)]. *)
Definition setSummaries (f : gmap jsstring JsVal -> gmap jsstring JsVal)
    (s : AppState) : AppState :=
  mkAppState (db s) (userId s) (isAuthReady s) (links s) (newLinkUrl s) (newLinkTitle s)
    (isLoading s) (error s) (showAddForm s) (f (summaries s)) (isSummarizing s).
Definition setIsSummarizing (f : gmap jsstring bool -> gmap jsstring bool)
    (s : AppState) : AppState :=
  mkAppState (db s) (userId s) (isAuthReady s) (links s) (newLinkUrl s) (newLinkTitle s)
    (isLoading s) (error s) (showAddForm s) (summaries s) (f (isSummarizing s)).

(** [!db || !userId] *)
Definition not_ready (s : AppState) : bool :=
  (negb (bool_decide (is_Some (db s))) || negb (truthy_str (userId s)))%bool.

(** ** Asynchronous handlers

    A handler is an [async] function: it updates the state, awaits calls to
    the outside (the generation endpoint, the document store) and may
    throw.  [Proc A] is the free monad of these steps; [run] executes a
    handler against an environment that settles every awaited call and may
    change the state while the handler is suspended. *)

Record Response := mkResponse { status : Z }.

(** [response.ok]: the status is in the range 200-299. *)
Definition ok (r : Response) : bool :=
  (Z.leb 200 (status r) && Z.leb (status r) 299)%bool.

Inductive Cmd : Type :=
| Fetch (apiUrl : jsstring) (payload : JsVal)          (* fetch(apiUrl, {method: 'POST', ..., body}) *)
| ResponseJson (r : Response)                          (* response.json() *)
| AddDoc (collectionPath : jsstring) (fields : LinkFields)
| DeleteDoc (docPath : jsstring)
| UpdateDoc (docPath : jsstring) (summary : JsVal).    (* updateDoc(doc(db, docPath), {summary}) *)

Definition reply (c : Cmd) : Type :=
  match c with
  | Fetch _ _ => Response
  | ResponseJson _ => JsVal
  | AddDoc _ _ | DeleteDoc _ | UpdateDoc _ _ => unit
  end.

Inductive Proc (A : Type) : Type :=
| Ret (a : A)
| Throw (e : JsError)
| Upd (f : AppState -> AppState) (k : Proc A)          (* a call of a state setter *)
| Await (c : Cmd) (k : JsError + reply c -> Proc A).   (* suspended until [c] settles *)

Arguments Ret {A} a.
Arguments Throw {A} e.
Arguments Upd {A} f k.
Arguments Await {A} c k.

Fixpoint bind {A B} (p : Proc A) (f : A -> Proc B) : Proc B :=
  match p with
  | Ret a => f a
  | Throw e => Throw e
  | Upd g k => Upd g (bind k f)
  | Await c k => Await c (fun r => bind (k r) f)
  end.

#[global] Instance Proc_ret : MRet Proc := @Ret.
#[global] Instance Proc_bind : MBind Proc := fun A B f p => bind p f.

(** [try { body } catch (err) { handler err }] *)
Fixpoint try_catch {A} (body : Proc A) (handler : JsError -> Proc A) : Proc A :=
  match body with
  | Ret a => Ret a
  | Throw e => handler e
  | Upd g k => Upd g (try_catch k handler)
  | Await c k => Await c (fun r => try_catch (k r) handler)
  end.

(** [try { body } finally { fin }] *)
Fixpoint try_finally {A} (body : Proc A) (fin : Proc unit) : Proc A :=
  match body with
  | Ret a => fin ;; Ret a
  | Throw e => fin ;; Throw e
  | Upd g k => Upd g (try_finally k fin)
  | Await c k => Await c (fun r => try_finally (k r) fin)
  end.

Definition upd (f : AppState -> AppState) : Proc unit := Upd f (Ret tt).

(** [await c]: the value [c] resolves to; a rejection is thrown. *)
Definition await (c : Cmd) : Proc (reply c) :=
  Await c (fun r => match r with inl e => Throw e | inr v => Ret v end).

(** Expressions that may throw. *)
#[global] Instance result_ret : MRet (sum JsError) := fun A a => inr a.
#[global] Instance result_bind : MBind (sum JsError) := fun A B f r =>
  match r with inl e => inl e | inr a => f a end.

Definition eval {A} (r : JsError + A) : Proc A :=
  match r with inl e => Throw e | inr a => Ret a end.

Record Env := mkEnv {
  settle : nat -> forall c : Cmd, JsError + reply c;   (* how the n-th awaited call settles *)
  meanwhile : nat -> AppState -> AppState              (* what else happens to the state during the n-th wait *)
}.

Record Run (A : Type) := mkRun {
  final : AppState;                                    (* the state once the handler has settled *)
  trace : list (AppState * Cmd);                       (* each call awaited, with the state left to render *)
  outcome : JsError + A
}.

Arguments mkRun {A} final trace outcome.
Arguments final {A} r.
Arguments trace {A} r.
Arguments outcome {A} r.

Fixpoint run {A} (p : Proc A) (env : Env) (n : nat) (s : AppState) : Run A :=
  match p with
  | Ret a => mkRun s [] (inr a)
  | Throw e => mkRun s [] (inl e)
  | Upd f k => run k env n (f s)
  | Await c k =>
      let r := run (k (settle env n c)) env (S n) (meanwhile env n s) in
      mkRun (final r) ((s, c) :: trace r) (outcome r)
  end.

(** The calls a run awaited, in order. *)
Definition calls {A} (r : Run A) : list Cmd := (trace r).*2.

(** ** The handlers (app.js, lines 39 and 122-272)

    A handler is created by a render and closes over that render's values
    of [db], [userId] and the form fields: its argument [st].  The setters
    it calls apply, in order, to the state current at the time. *)

(** The hosting page: the global [__app_id], and the engine's conversions
    between strings and numbers (see [gt_zero] and [number_to_string]). *)
Record Host := mkHost {
  app_id_global : option jsstring;
  str_gt0 : jsstring -> bool;
  num_str : Z -> jsstring
}.

Section Handlers.

Variable host : Host.

(** [typeof __app_id !== 'undefined' ? __app_id : 'default-laterlink-app'] *)
Definition appId : jsstring :=
  match app_id_global host with
  | Some a => a
  | None => u16 "default-laterlink-app"
  end.

(** *** The live subscription (lines 123-156) *)

Record Query := mkQuery {
  q_collection : jsstring;
  q_orderBy : jsstring;
  q_direction : jsstring
}.

Definition linksSubscription (st : AppState) : option Query :=
  if (isAuthReady st && negb (not_ready st))%bool then
    let linksCollectionPath :=
      u16 "artifacts/" ++ appId ++ u16 "/users/" ++ hole (userId st) ++ u16 "/laterTubeLinks" in
    Some (mkQuery linksCollectionPath (u16 "addedAt") (u16 "desc"))
  else None.

Definition initialSummaries (fetchedLinks : list Link) : gmap jsstring JsVal :=
  foldl (fun m link =>
           if truthy (f_summary (data link))
           then <[id link := f_summary (data link)]> m
           else m) ∅ fetchedLinks.

Definition onLinksSnapshot (fetchedLinks : list Link) (st : AppState) : AppState :=
  setError []
    (setIsLoading false
       (setSummaries (fun prev => initialSummaries fetchedLinks ∪ prev)
          (setLinks fetchedLinks st))).

(** *** handleAddLink (lines 159-197) *)

Definition handleAddLink (st : AppState) : Proc unit :=
  if (blank (newLinkUrl st) || blank (newLinkTitle st))%bool then
    upd (setError (u16 "Both URL and Title are required."))
  else if not_ready st then
    upd (setError (u16 "Database not ready or user not authenticated."))
  else
    let videoId := getYouTubeVideoId (Some (newLinkUrl st)) in
    if negb (truthy_str videoId) then
      upd (setError (u16 "Invalid YouTube URL. Please enter a valid YouTube video link."))
    else
      upd (setError []);;
      let linksCollectionPath :=
        u16 "artifacts/" ++ appId ++ u16 "/users/" ++ hole (userId st) ++ u16 "/laterTubeLinks" in
      try_catch
        (await (AddDoc linksCollectionPath
                  (mkLinkFields (newLinkUrl st) (newLinkTitle st) videoId (userId st) JNull));;
         upd (setNewLinkUrl []);;
         upd (setNewLinkTitle []);;
         upd (setShowAddForm false))
        (fun err => upd (setError (u16 "Failed to add link. Please try again."))).

(** *** handleDeleteLink (lines 199-219) *)

Definition handleDeleteLink (st : AppState) (linkId : jsstring) : Proc unit :=
  if not_ready st then
    upd (setError (u16 "Database not ready or user not authenticated."))
  else
    upd (setError []);;
    let linkDocPath :=
      u16 "artifacts/" ++ appId ++ u16 "/users/" ++ hole (userId st)
        ++ u16 "/laterTubeLinks/" ++ linkId in
    try_catch
      (await (DeleteDoc linkDocPath);;
       upd (setSummaries (fun prev => delete linkId prev)))
      (fun err => upd (setError (u16 "Failed to delete link. Please try again."))).

(** *** handleGetSummary (lines 222-272) *)

Definition GENERATING : jsstring := 10024%N :: u16 " Generating summary...".

Definition COULD_NOT : jsstring :=
  u16 "Could not generate summary (unexpected response).".

Definition prompt (linkTitle linkUrl : jsstring) : jsstring :=
  u16 "Based on the title and URL, provide a concise, one to two-sentence speculative summary of what the YouTube video titled "
  ++ [34%N] ++ linkTitle ++ [34%N] ++ u16 " (URL: " ++ linkUrl
  ++ u16 ") might be about. Focus on the likely main topic or purpose. If you cannot make a reasonable inference, say so.".

Definition payload (linkTitle linkUrl : jsstring) : JsVal :=
  let chatHistory :=
    JArr [JObj [(u16 "role", JStr (u16 "user"));
                (u16 "parts", JArr [JObj [(u16 "text", JStr (prompt linkTitle linkUrl))]])]] in
  JObj [(u16 "contents", chatHistory)].

Definition apiUrl : jsstring :=
  let apiKey : jsstring := [] in
  u16 "https://generativelanguage.googleapis.com/v1beta/models/gemini-2.0-flash:generateContent?key="
  ++ apiKey.

(** The condition of line 252, evaluated from left to right. *)
Definition has_parts (result : JsVal) : JsError + bool :=
  candidates ← get result "candidates";
  if negb (truthy candidates) then inr false else
  n ← get candidates "length";
  some ← gt_zero (num_str host) (str_gt0 host) n;
  if negb some then inr false else
  first ← get0 candidates;
  content ← get first "content";
  if negb (truthy content) then inr false else
  parts ← get content "parts";
  if negb (truthy parts) then inr false else
  m ← get parts "length";
  gt_zero (num_str host) (str_gt0 host) m.

(** [result.candidates[0].content.parts[0].text] *)
Definition first_text (result : JsVal) : JsError + JsVal :=
  candidates ← get result "candidates";
  first ← get0 candidates;
  content ← get first "content";
  parts ← get content "parts";
  part ← get0 parts;
  get part "text".

Definition handleGetSummary (st : AppState) (linkId linkTitle linkUrl : jsstring) :
    Proc unit :=
  if not_ready st then
    upd (setError (u16 "Database not ready or user not authenticated for summary."))
  else
    upd (setIsSummarizing (fun prev => <[linkId := true]> prev));;
    upd (setSummaries (fun prev => <[linkId := JStr GENERATING]> prev));;
    try_finally
      (try_catch
         (response ← await (Fetch apiUrl (payload linkTitle linkUrl));
          if negb (ok response) then
            errorData ← await (ResponseJson response);
            detail ← eval (to_string (num_str host)
                             (js_or (get_opt (get_opt errorData "error") "message")
                                    (JStr (u16 "Unknown error"))));
            Throw (mkError
              (u16 "API request failed with status " ++ decimal (status response) ++ u16 ": "
               ++ detail))
          else
            result ← await (ResponseJson response);
            wf ← eval (has_parts result);
            if wf : bool then
              textSummary ← eval (first_text result);
              upd (setSummaries (fun prev => <[linkId := textSummary]> prev));;
              let linkDocPath :=
                u16 "artifacts/" ++ appId ++ u16 "/users/" ++ hole (userId st)
                  ++ u16 "/laterTubeLinks/" ++ linkId in
              await (UpdateDoc linkDocPath textSummary)
            else
              upd (setSummaries (fun prev => <[linkId := JStr COULD_NOT]> prev)))
         (fun err =>
            upd (setSummaries (fun prev =>
              <[linkId := JStr (u16 "Error: " ++
                  match message err with
                  | [] => u16 "Failed to get summary."
                  | m => m
                  end)]> prev))))
      (upd (setIsSummarizing (fun prev => <[linkId := false]> prev))).

End Handlers.

(** *** The summary section of a link's card (lines 419-439) *)

(** [summaries[link.id]] and [isSummarizing[link.id]], [undefined] when absent. *)
Definition summary_of (st : AppState) (linkId : jsstring) : JsVal :=
  default JUndefined (summaries st !! linkId).

Definition summarizing (st : AppState) (linkId : jsstring) : bool :=
  default false (isSummarizing st !! linkId).

(** The text under "Summary:", when the block is rendered. *)
Definition shownSummary (st : AppState) (linkId : jsstring) : option JsVal :=
  if truthy (summary_of st linkId) then Some (summary_of st linkId) else None.

Definition summaryButtonDisabled (st : AppState) (linkId : jsstring) : bool :=
  summarizing st linkId.

(** The button's label; [startsWith] exists on strings only. *)
Definition summaryButtonLabel (st : AppState) (linkId : jsstring) : JsError + jsstring :=
  if summarizing st linkId then inr (u16 "Getting Summary...")
  else
    let s := summary_of st linkId in
    if negb (truthy s) then inr (u16 "Get Summary")
    else
      match s with
      | JStr t =>
          if bool_decide (t = GENERATING) then inr (u16 "Get Summary")
          else if startsWith t (u16 "Error:") then inr (u16 "Get Summary")
          else inr (u16 "Regenerate Summary")
      | _ => inl (mkError (u16 "summaries[link.id].startsWith is not a function"))
      end.

Definition deleteButtonDisabled (st : AppState) (linkId : jsstring) : bool :=
  (isLoading st || summarizing st linkId)%bool.

(** ** Vocabulary of the properties *)

Definition ready (st : AppState) : Prop := not_ready st = false.

(** No other event touches the state while the handler waits. *)
Definition quiet (env : Env) : Prop := forall n s, meanwhile env n s = s.

(** Nothing else writes the summary of [linkId] during the n-th wait. *)
Definition keeps_summary (env : Env) (n : nat) (linkId : jsstring) : Prop :=
  forall s, summaries (meanwhile env n s) !! linkId = summaries s !! linkId.

(** The collection of the signed-in user's links, as the subscription names it. *)
Definition subscribed (host : Host) (st : AppState) : jsstring :=
  match linksSubscription host st with
  | Some q => q_collection q
  | None => []
  end.

(** The generation response of the specification,
    [{candidates: [{content: {parts: [{text: S}]}}]}], possibly with more
    parts and more candidates after the first. *)
Definition generation_response (S : jsstring) (parts candidates : list JsVal) : JsVal :=
  JObj [(u16 "candidates",
         JArr (JObj [(u16 "content",
                      JObj [(u16 "parts", JArr (JObj [(u16 "text", JStr S)] :: parts))])]
               :: candidates))].

(** [v.k] for a [v] that is neither [null] nor [undefined] and a name [k]
    other than [length]: only an object has such a property. *)
Definition member (v : JsVal) (k : string) : JsVal :=
  match v with
  | JObj fs => field (u16 k) fs
  | _ => JUndefined
  end.

Definition is_nullish (v : JsVal) : bool :=
  match v with
  | JUndefined | JNull => true
  | _ => false
  end.

(** A success payload that lacks the expected fields and can be read: the
    payload is not null and has no candidates (the field is missing, null
    or otherwise falsy, or an empty array), or the first candidate is not
    null and has no content parts (no content, no parts, or an empty array
    of parts). *)
Inductive lacks_parts : JsVal -> Prop :=
| no_candidates result :
    is_nullish result = false ->
    truthy (member result "candidates") = false -> lacks_parts result
| empty_candidates result :
    member result "candidates" = JArr [] -> lacks_parts result
| no_content result first cs :
    member result "candidates" = JArr (first :: cs) ->
    is_nullish first = false ->
    truthy (member first "content") = false -> lacks_parts result
| no_parts result first cs :
    member result "candidates" = JArr (first :: cs) ->
    truthy (member first "content") = true ->
    truthy (member (member first "content") "parts") = false -> lacks_parts result
| empty_parts result first cs :
    member result "candidates" = JArr (first :: cs) ->
    member (member first "content") "parts" = JArr [] -> lacks_parts result.

(** A success payload that lacks the expected fields and cannot be read:
    the payload is null, or its first candidate is; [null_read result k]
    names the property [k] whose reading throws. *)
Inductive null_read : JsVal -> string -> Prop :=
| null_payload : null_read JNull "candidates"
| null_candidate result cs :
    member result "candidates" = JArr (JNull :: cs) -> null_read result "content".

(** Firestore addresses a document by the segments of its path. *)
Fixpoint segments_from (cur : jsstring) (s : jsstring) : list jsstring :=
  match s with
  | [] => [reverse cur]
  | u :: s' => if N.eqb u 47 then reverse cur :: segments_from [] s'
               else segments_from (u :: cur) s'
  end.

Definition segments (s : jsstring) : list jsstring := segments_from [] s.

(** The path of the document [linkId] of a collection. *)
Definition doc_path (collectionPath linkId : jsstring) : jsstring :=
  collectionPath ++ u16 "/" ++ linkId.

(** ** The shapes as the specification words them

    [youtu.be/<id>], [/v/<id>], [/u/<n>/<id>], [/embed/<id>], [?v=<id>],
    [&v=<id>], with an id segment of 11 units that ends at a delimiter or at
    the end of the string. *)

Inductive spec_shape : jsstring -> Prop :=
| shape_youtu_be : spec_shape (u16 "youtu.be/")
| shape_v : spec_shape (u16 "/v/")
| shape_u n : spec_shape (u16 "/u/" ++ n :: u16 "/")
| shape_embed : spec_shape (u16 "/embed/")
| shape_query_v : spec_shape (u16 "?v=")
| shape_amp_v : spec_shape (u16 "&v=").

Definition spec_matches (u id : jsstring) : Prop :=
  exists pre mk r,
    u = pre ++ mk ++ id ++ r /\ spec_shape mk /\ length id = 11 /\
    Forall (fun c => not_delim c = true) id /\ segment_end r.

(** ** Sample data *)

Module Sample.

(** A page without [__app_id]; the sample payloads hold no string and no
    large number for the engine to convert. *)
Definition host : Host := mkHost None (fun _ => false) decimal.

Definition user : jsstring := u16 "uid1".

(** A signed-in session with no links yet. *)
Definition st0 : AppState :=
  mkAppState (Some firestoreDb) (Some user) true [] [] [] false [] false ∅ ∅.

Definition link : jsstring := u16 "L1".
Definition title : jsstring := u16 "Never Gonna Give You Up".
Definition url : jsstring := u16 "https://www.youtube.com/watch?v=dQw4w9WgXcQ".
Definition video : jsstring := u16 "dQw4w9WgXcQ".

(** The form filled in. *)
Definition form (u t : jsstring) : AppState :=
  setNewLinkTitle t (setNewLinkUrl u (setShowAddForm true st0)).

(** The endpoint answers with [status] and [body], the store settles every
    call with [store], and nothing else happens meanwhile. *)
Definition env (status : Z) (body : JsVal) (store : JsError + unit) : Env :=
  mkEnv (fun _ c =>
           match c return JsError + reply c with
           | Fetch _ _ => inr (mkResponse status)
           | ResponseJson _ => inr body
           | AddDoc _ _ => store
           | DeleteDoc _ => store
           | UpdateDoc _ _ => store
           end)
        (fun _ s => s).

Definition offline : JsError := mkError (u16 "offline").

(** The session after a summary of [link] was generated and saved. *)
Definition summarized : AppState :=
  final (run (handleGetSummary host st0 link title url)
             (env 200 (generation_response (u16 "S") [] []) (inr tt)) 0 st0).

End Sample.

(** ** The rest of the component

    What follows models the parts of [App] around the handlers: the two
    effects (initialisation and the live subscription), the callbacks they
    register, the inputs of the form and the top of the render. *)

(** [setAuth] writes a state variable that nothing reads ([auth]); it has no
    counterpart here. *)
Definition setDb (v : option Firestore) (s : AppState) : AppState :=
  mkAppState v (userId s) (isAuthReady s) (links s) (newLinkUrl s) (newLinkTitle s)
    (isLoading s) (error s) (showAddForm s) (summaries s) (isSummarizing s).
Definition setUserId (v : option jsstring) (s : AppState) : AppState :=
  mkAppState (db s) v (isAuthReady s) (links s) (newLinkUrl s) (newLinkTitle s)
    (isLoading s) (error s) (showAddForm s) (summaries s) (isSummarizing s).
Definition setIsAuthReady (v : bool) (s : AppState) : AppState :=
  mkAppState (db s) (userId s) v (links s) (newLinkUrl s) (newLinkTitle s)
    (isLoading s) (error s) (showAddForm s) (summaries s) (isSummarizing s).

(** The state of the first render (lines 51-65). *)
Definition initialState : AppState :=
  mkAppState None None false [] [] [] true [] false ∅ ∅.

(** *** The state part of the subscription effect (lines 123-156) *)

Definition linksEffect (st : AppState) : AppState :=
  if (isAuthReady st && negb (not_ready st))%bool then setIsLoading true st
  else if (isAuthReady st && negb (truthy_str (userId st)))%bool then setIsLoading false st
  else st.

(** The error callback of [onSnapshot] (lines 146-150). *)
Definition onLinksError (st : AppState) : AppState :=
  setIsLoading false
    (setError (u16 "Failed to load links. Please check your connection or try again later.") st).

(** *** What a handler may write

    [all_upd P p]: every setter call of [p], on every branch, satisfies [P]. *)
Inductive all_upd {A} (P : (AppState -> AppState) -> Prop) : Proc A -> Prop :=
| all_Ret a : all_upd P (Ret a)
| all_Throw e : all_upd P (Throw e)
| all_Upd f k : P f -> all_upd P k -> all_upd P (Upd f k)
| all_Await c k : (forall r, all_upd P (k r)) -> all_upd P (Await c k).

(** The setter calls that occur in the three handlers. *)
Inductive handler_write : (AppState -> AppState) -> Prop :=
| write_error m : handler_write (setError m)
| write_url : handler_write (setNewLinkUrl [])
| write_title : handler_write (setNewLinkTitle [])
| write_form : handler_write (setShowAddForm false)
| write_summaries g : handler_write (setSummaries g)
| write_summarizing g : handler_write (setIsSummarizing g).

(** *** The events of a session

    Each event is one synchronous block of the source, whose setter calls
    are rendered together. *)
Inductive Event : Type :=
| ConfigMissing                      (* lines 114-119: getFirebaseConfig() gave nothing *)
| InitThrew (dbSet : bool)           (* lines 108-113; [dbSet]: the throw came after setDb *)
| InitStarted                        (* lines 72-79: setDb, setAuth, setPersistence called *)
| PersistenceFailed                  (* lines 102-106 *)
| SignedIn (uid : jsstring)          (* lines 82-84 and 98: the callback gets a user *)
| SignedOut (signInFailed : bool)    (* lines 85-98: no user; the sign-in attempt has settled *)
| LinksEffect                        (* lines 124-155 *)
| LinksSnapshot (fetchedLinks : list Link)   (* lines 130-145 *)
| LinksError                         (* lines 146-150 *)
| InputUrl (v : jsstring)            (* line 322 *)
| InputTitle (v : jsstring)          (* line 334 *)
| ShowForm                           (* line 304 *)
| Cancel                             (* line 354 *)
| HandlerWrite (f : AppState -> AppState).   (* one setter call of a running handler *)

Definition apply_event (e : Event) (s : AppState) : AppState :=
  match e with
  | ConfigMissing =>
      setIsAuthReady true
        (setIsLoading false
           (setError (u16 "Application configuration is missing. Cannot start.") s))
  | InitThrew dbSet =>
      setIsAuthReady true
        (setIsLoading false
           (setError (u16 "Could not initialize the application. Please check the console.")
              (if dbSet then setDb (Some firestoreDb) s else s)))
  | InitStarted => setDb (Some firestoreDb) s
  | PersistenceFailed =>
      setIsAuthReady true
        (setError (u16 "Could not initialize session. Please try again.") s)
  | SignedIn uid => setIsAuthReady true (setUserId (Some uid) s)
  | SignedOut signInFailed =>
      setIsAuthReady true
        (if signInFailed
         then setError (u16 "Authentication failed. Please try again later.") s
         else s)
  | LinksEffect => linksEffect s
  | LinksSnapshot fetchedLinks => onLinksSnapshot fetchedLinks s
  | LinksError => onLinksError s
  | InputUrl v => setNewLinkUrl v s
  | InputTitle v => setNewLinkTitle v s
  | ShowForm => setShowAddForm true s
  | Cancel => setShowAddForm false s
  | HandlerWrite f => f s
  end.

(** When an event can occur.  The snapshot callbacks belong to the
    subscription, which the effect's cleanup closes as soon as its condition
    fails; the identity provider's user ids are not empty; a handler's write
    is one of [handler_write].  The other events are not constrained. *)
Definition enabled (host : Host) (e : Event) (s : AppState) : Prop :=
  match e with
  | LinksSnapshot _ | LinksError => is_Some (linksSubscription host s)
  | SignedIn uid => uid <> []
  | HandlerWrite f => handler_write f
  | _ => True
  end.

Inductive reachable (host : Host) : AppState -> Prop :=
| reach_initial : reachable host initialState
| reach_event e s :
    reachable host s -> enabled host e s -> reachable host (apply_event e s).

(** *** The top of the render (lines 275-390) *)

Record Page := mkPage {
  errorBanner : option jsstring;     (* {error && ...} *)
  addButton : bool;                  (* {!showAddForm && ...} *)
  addForm : bool;                    (* {showAddForm && ...} *)
  loadingPanel : bool;               (* "Loading links..." *)
  emptyPanel : bool;                 (* "No links saved yet." *)
  authProblemPanel : bool;           (* "Authentication Problem" *)
  cards : list Link                  (* links.map(...) *)
}.

Inductive Screen : Type :=
| InitialScreen                      (* "Initializing App...", the early return *)
| MainScreen (p : Page).

Definition render (st : AppState) : Screen :=
  if (negb (isAuthReady st) && isLoading st)%bool then InitialScreen
  else
    let no_links := Nat.eqb (length (links st)) 0 in
    let no_error := negb (truthy_str (Some (error st))) in
    MainScreen
      (mkPage
         (if truthy_str (Some (error st)) then Some (error st) else None)
         (negb (showAddForm st))
         (showAddForm st)
         (isLoading st && no_links && no_error && isAuthReady st)
         (negb (isLoading st) && no_links && no_error && isAuthReady st)
         (negb (isAuthReady st) && negb (isLoading st))
         (links st))%bool.

(** [src] of a card's player (line 399). *)
Definition embedSrc (link : Link) : jsstring :=
  u16 "https://www.youtube.com/embed/" ++ hole (f_videoId (data link)).

(** *** A card (lines 395-455) *)

(** What React accepts as a child: a string or a number is shown as text,
    a boolean, [null] and [undefined] as nothing, an array as its elements;
    a plain object is refused, and the render throws. *)
Fixpoint valid_child (v : JsVal) : bool :=
  match v with
  | JObj _ => false
  | JArr l => forallb valid_child l
  | _ => true
  end.

Record Card := mkCard {
  playerSrc : jsstring;              (* line 399 *)
  summaryBlock : option JsVal;       (* the paragraph under "Summary:", lines 420-425 *)
  summaryDisabled : bool;            (* line 428 *)
  summaryLabel : jsstring;           (* line 438 *)
  deleteDisabled : bool              (* line 445 *)
}.

(** The card of a link; [None] when its render throws: the expression of
    the label does (a TypeError), or React refuses the cached summary,
    the value of [{summaries[link.id] && ...}] or the child of its
    paragraph, as a child. *)
Definition renderCard (st : AppState) (link : Link) : option Card :=
  match summaryButtonLabel st (id link) with
  | inl _ => None
  | inr label =>
      if valid_child (summary_of st (id link)) then
        Some (mkCard (embedSrc link) (shownSummary st (id link))
                (summaryButtonDisabled st (id link)) label
                (deleteButtonDisabled st (id link)))
      else None
  end.

(** [links.map(link => ...)] (line 394): one throwing card and the page is
    not rendered. *)
Definition renderCards (st : AppState) : option (list Card) :=
  mapM (renderCard st) (links st).

(** The alphabet of the ids that YouTube issues: [A-Za-z0-9_-]. *)
Definition id_char (u : N) : bool := (word_char u || N.eqb u 45)%bool.

(** The setter calls of each handler. *)
Inductive add_write : (AppState -> AppState) -> Prop :=
| aw_error m : add_write (setError m)
| aw_url : add_write (setNewLinkUrl [])
| aw_title : add_write (setNewLinkTitle [])
| aw_form : add_write (setShowAddForm false).

Inductive delete_write (linkId : jsstring) : (AppState -> AppState) -> Prop :=
| dw_error m : delete_write linkId (setError m)
| dw_summary : delete_write linkId (setSummaries (fun prev => delete linkId prev)).

Inductive summary_write (linkId : jsstring) : (AppState -> AppState) -> Prop :=
| sw_error m : summary_write linkId (setError m)
| sw_summary v : summary_write linkId (setSummaries (fun prev => <[linkId := v]> prev))
| sw_flag b : summary_write linkId (setIsSummarizing (fun prev => <[linkId := b]> prev)).

(** What the subscription and the session own: no handler writes it. *)
Definition session_part (s : AppState) :
    option Firestore * option jsstring * bool * list Link * bool :=
  (db s, userId s, isAuthReady s, links s, isLoading s).

(** The cached summary and the flag of one link. *)
Definition link_part (y : jsstring) (s : AppState) : option JsVal * option bool :=
  (summaries s !! y, isSummarizing s !! y).

(** [err.message || "Failed to get summary."] *)
Definition shown_message (e : JsError) : jsstring :=
  match message e with
  | [] => u16 "Failed to get summary."
  | m => m
  end.

(** What every rendered state of a session satisfies: the loading flag is
    not cleared before the auth-ready flag is set, and links are listed only
    once the session is ready. *)
Definition session_invariant (s : AppState) : Prop :=
  (isAuthReady s = false -> isLoading s = true) /\
  (links s <> [] -> isAuthReady s = true /\ not_ready s = false).

(** A session that has signed in and received one link. *)
Module Scenario.

Definition saved : Link :=
  mkLink Sample.link
    (mkLinkFields Sample.url Sample.title (Some Sample.video) (Some Sample.user) JNull).

Definition events : list Event :=
  [InitStarted; SignedIn Sample.user; LinksEffect; LinksSnapshot [saved]].

Definition listed : AppState :=
  foldl (fun s e => apply_event e s) initialState events.

End Scenario.

(** * Properties *)

(** ** The extractor *)

Section Extractor.

Lemma starts_Some l s r : starts l s = Some r <-> s = l ++ r.
Proof.
  revert s. induction l as [|a l IH]; intros s; simpl.
  - split; congruence.
  - destruct s as [|b s]; [split; discriminate|].
    destruct (N.eqb_spec a b) as [->|Hne].
    + rewrite IH. split; congruence.
    + split; [discriminate|]. intros [= ? _]. congruence.
Qed.

Lemma starts_app l r : starts l (l ++ r) = Some r.
Proof. by apply starts_Some. Qed.

Lemma take_run_of p s : take (length (run_of p s)) s = run_of p s.
Proof.
  induction s as [|u s IH]; simpl; [done|].
  destruct (p u); simpl; [by rewrite IH|done].
Qed.

Lemma run_of_app p s :
  s = run_of p s ++ drop (length (run_of p s)) s.
Proof. by rewrite <- take_run_of at 1; rewrite take_drop. Qed.

(** The matcher of a literal strips it from the input. *)
Lemma matcher_lits u l x c :
  matcher (lits u l) x c =
  match starts (u :: l) (rest x) with
  | Some r => c (mkMatchState (endIndex x + S (length l)) r (captures x))
  | None => None
  end.
Proof.
  revert u x. induction l as [|v l IH]; intros u x.
  - simpl. destruct (rest x) as [|b s]; [done|].
    destruct (N.eqb u b); [|done]. unfold advance. by rewrite Nat.add_1_r.
  - cbn [lits matcher chr]. destruct (rest x) as [|b s] eqn:Hx; [done|].
    change (starts (u :: v :: l) (b :: s))
      with (if N.eqb u b then starts (v :: l) s else None).
    destruct (N.eqb u b); [|done].
    rewrite IH. cbn [advance rest endIndex captures length].
    destruct (starts (v :: l) s); [|done].
    f_equal. f_equal. lia.
Qed.

(** A repetition followed by something that cannot fail takes all it can. *)
Lemma repeat1_greedy p s i caps c :
  (forall x, is_Some (c x)) ->
  repeat1 p s i caps c =
  c (mkMatchState (i + length (run_of p s)) (drop (length (run_of p s)) s) caps).
Proof.
  intros Hc. revert i. induction s as [|u s IH]; intros i; simpl.
  - by rewrite Nat.add_0_r.
  - destruct (p u); simpl.
    + rewrite IH, <- Nat.add_succ_comm.
      by destruct (Hc (mkMatchState (S i + length (run_of p s))
                         (drop (length (run_of p s)) s) caps)) as [y ->].
    + by rewrite Nat.add_0_r.
Qed.

Lemma repeat1_accept p s i caps :
  exists y, repeat1 p s i caps Some = Some y /\ captures y = caps.
Proof.
  rewrite repeat1_greedy by (intros; eauto). eauto.
Qed.

Lemma matcher_lit s x c :
  u16 s <> [] ->
  matcher (lit s) x c =
  match starts (u16 s) (rest x) with
  | Some r => c (mkMatchState (endIndex x + length (u16 s)) r (captures x))
  | None => None
  end.
Proof.
  unfold lit. destruct (u16 s) as [|u l]; [done|]. intros _. apply matcher_lits.
Qed.

Lemma matcher_Alt r1 r2 x c :
  matcher (Alt r1 r2) x c = orelse (matcher r1 x c) (matcher r2 x c).
Proof. reflexivity. Qed.

Lemma matcher_lit_marker s n x c :
  u16 s <> [] -> n = length (u16 s) ->
  matcher (lit s) x c = bind_marker x c (pair n <$> starts (u16 s) (rest x)).
Proof.
  intros Hs ->. rewrite matcher_lit by done.
  by destruct (starts (u16 s) (rest x)).
Qed.

Lemma matcher_youtu_be x c :
  matcher (Seq (lit "youtu") (Seq (Unit1 dot) (lit "be/"))) x c =
  bind_marker x c (after_youtu_be (rest x)).
Proof.
  unfold after_youtu_be. cbn [matcher]. rewrite matcher_lit by done.
  destruct (starts (u16 "youtu") (rest x)) as [[|d t]|]; cbn [rest]; try done.
  destruct (dot d); [|done].
  rewrite matcher_lit by done. cbn [advance rest endIndex captures].
  destruct (starts (u16 "be/") t); [|done].
  unfold bind_marker, resume. cbn. do 2 f_equal. lia.
Qed.

Lemma matcher_u x c :
  matcher (Seq (lit "u/") (Seq (Unit1 word_char) (lit "/"))) x c =
  bind_marker x c (after_u (rest x)).
Proof.
  unfold after_u. cbn [matcher]. rewrite matcher_lit by done.
  destruct (starts (u16 "u/") (rest x)) as [[|d t]|]; cbn [rest]; try done.
  destruct (word_char d); [|done].
  rewrite matcher_lit by done. cbn [advance rest endIndex captures].
  destruct (starts (u16 "/") t); [|done].
  unfold bind_marker, resume. cbn. do 2 f_equal. lia.
Qed.

Lemma bind_marker_orelse x c a b :
  (forall y, is_Some (c y)) ->
  bind_marker x c (orelse a b) = orelse (bind_marker x c a) (bind_marker x c b).
Proof.
  intros Hc. destruct a as [v|]; [|done]. simpl. unfold resume.
  by destruct (Hc (mkMatchState (endIndex x + v.1) v.2 (captures x))) as [y ->].
Qed.

(** The first group, before a continuation that cannot fail, is [marker]. *)
Lemma matcher_markers x c :
  (forall y, is_Some (c y)) ->
  matcher markers x c = bind_marker x c (marker (rest x)).
Proof.
  intros Hc. unfold marker. rewrite !bind_marker_orelse by done.
  unfold markers. rewrite !matcher_Alt.
  rewrite matcher_youtu_be, matcher_u.
  by rewrite (matcher_lit_marker "v/" 2), (matcher_lit_marker "embed/" 6),
    (matcher_lit_marker "watch?v=" 8), (matcher_lit_marker "&v=" 3).
Qed.

(** What follows the first group never fails, and records the second
    capture: the longest run of units other than the three delimiters. *)
Lemma matcher_tail y :
  exists z, matcher tail y Some = Some z /\
            captures z = <[2 := run_of not_delim (rest y)]> (captures y).
Proof.
  unfold tail. cbn [matcher].
  rewrite repeat1_greedy.
  - cbn [rest endIndex captures].
    edestruct repeat1_accept as (z & -> & Hz).
    eexists; split; [done|]. rewrite Hz. f_equal.
    rewrite <- (take_run_of not_delim (rest y)) at 2. f_equal. lia.
  - intros x. cbn [rest endIndex captures].
    edestruct repeat1_accept as (z & -> & _). eauto.
Qed.

Lemma matcher_after_line y :
  match marker (rest y) with
  | Some v => exists z, matcher after_line y Some = Some z /\
                        captures z !! 2 = Some (run_of not_delim v.2)
  | None => matcher after_line y Some = None
  end.
Proof.
  unfold after_line. cbn [matcher].
  rewrite matcher_markers.
  - destruct (marker (rest y)) as [v|]; [|done].
    unfold bind_marker, resume. cbn [rest endIndex captures].
    edestruct matcher_tail as (z & -> & Hz).
    eexists; split; [done|]. rewrite Hz. cbn [rest]. by rewrite lookup_insert_eq.
  - intros x. edestruct matcher_tail as (z & -> & _). eauto.
Qed.

(** The greedy [.*] at the front gives way until a marker follows. *)
Lemma repeat1_last_marker s i caps :
  match last_marker s with
  | Some r => exists z, repeat1 dot s i caps (fun y => matcher after_line y Some) = Some z /\
                        captures z !! 2 = Some (run_of not_delim r)
  | None => repeat1 dot s i caps (fun y => matcher after_line y Some) = None
  end.
Proof.
  revert i. induction s as [|u s IH]; intros i.
  - simpl. pose proof (matcher_after_line (mkMatchState i [] caps)) as H.
    cbn [rest] in H. by destruct (marker []).
  - cbn [last_marker repeat1].
    pose proof (matcher_after_line (mkMatchState i (u :: s) caps)) as H.
    cbn [rest] in H.
    destruct (dot u).
    + specialize (IH (S i)). destruct (last_marker s) as [r|].
      * destruct IH as (z & -> & Hz). cbn [orelse]. eauto.
      * rewrite IH. cbn [orelse]. by destruct (marker (u :: s)).
    + by destruct (marker (u :: s)).
Qed.

Lemma matcher_regExp x :
  matcher regExp x Some =
  if Nat.eqb (endIndex x) 0
  then repeat1 dot (rest x) (endIndex x) (captures x) (fun y => matcher after_line y Some)
  else None.
Proof. reflexivity. Qed.

Lemma exec_from_late s i : exec_from regExp s (S i) = None.
Proof.
  revert i. induction s as [|u s IH]; intros i; cbn [exec_from];
    rewrite matcher_regExp; cbn [endIndex Nat.eqb]; [done|apply IH].
Qed.

Lemma exec_regExp u :
  match last_marker u with
  | Some r => exists z, exec regExp u = Some z /\
                        captures z !! 2 = Some (run_of not_delim r)
  | None => exec regExp u = None
  end.
Proof.
  unfold exec.
  assert (exec_from regExp u 0 = matcher regExp (mkMatchState 0 u ∅) Some) as ->.
  { destruct u; cbn [exec_from]; destruct (matcher regExp _ Some);
      rewrite ?exec_from_late; done. }
  rewrite matcher_regExp. cbn [endIndex rest captures Nat.eqb].
  apply repeat1_last_marker.
Qed.

(** The second capture takes part in every match. *)
Lemma regExp_group2 u m : exec regExp u = Some m -> is_Some (captures m !! 2).
Proof.
  intros Hm. pose proof (exec_regExp u) as H.
  destruct (last_marker u); [|congruence].
  destruct H as (z & Hz & H2). simplify_eq. eauto.
Qed.

(** The extractor computes the direct description. *)
Lemma getYouTubeVideoId_extract u : getYouTubeVideoId (Some u) = extract u.
Proof.
  unfold getYouTubeVideoId, extract.
  destruct u as [|a u]; [done|].
  pose proof (exec_regExp (a :: u)) as H.
  destruct (last_marker (a :: u)) as [r|].
  - destruct H as (z & -> & ->). done.
  - by rewrite H.
Qed.

(** *** From the direct description to the relation *)

Lemma orelse_Some {A} (a b : option A) v :
  orelse a b = Some v -> a = Some v \/ (a = None /\ b = Some v).
Proof. destruct a; simpl; auto. Qed.

Lemma orelse_Some_None {A} (a b : option A) :
  orelse a b = None -> a = None /\ b = None.
Proof. by destruct a. Qed.

Lemma pair_starts_Some (k : nat) (l s : jsstring) (n : nat) (r : jsstring) :
  pair k <$> starts l s = Some (n, r) -> s = l ++ r /\ n = k.
Proof.
  destruct (starts l s) as [t|] eqn:E; [|done].
  apply starts_Some in E. intros [= <- <-]. done.
Qed.

Lemma after_youtu_be_Some s n r :
  after_youtu_be s = Some (n, r) ->
  exists d, dot d = true /\ s = (u16 "youtu" ++ d :: u16 "be/") ++ r /\ n = 9.
Proof.
  unfold after_youtu_be.
  destruct (starts (u16 "youtu") s) as [[|d t]|] eqn:E; try done.
  apply starts_Some in E. destruct (dot d) eqn:Hd; [|done].
  intros [-> ->]%pair_starts_Some. exists d. by subst s.
Qed.

Lemma after_u_Some s n r :
  after_u s = Some (n, r) ->
  exists w, word_char w = true /\ s = (u16 "u/" ++ w :: u16 "/") ++ r /\ n = 4.
Proof.
  unfold after_u.
  destruct (starts (u16 "u/") s) as [[|d t]|] eqn:E; try done.
  apply starts_Some in E. destruct (word_char d) eqn:Hd; [|done].
  intros [-> ->]%pair_starts_Some. exists d. by subst s.
Qed.

Lemma marker_Some s n r :
  marker s = Some (n, r) -> exists mk, is_marker mk /\ s = mk ++ r /\ n = length mk.
Proof.
  unfold marker. intros H.
  repeat (apply orelse_Some in H as [H|[_ H]]).
  - apply after_youtu_be_Some in H as (d & Hd & -> & ->).
    eexists; split; [by apply marker_youtu_be|done].
  - apply pair_starts_Some in H as [-> ->]. eexists; split; [apply marker_v|done].
  - apply after_u_Some in H as (d & Hd & -> & ->).
    eexists; split; [by apply marker_u|done].
  - apply pair_starts_Some in H as [-> ->]. eexists; split; [apply marker_embed|done].
  - apply pair_starts_Some in H as [-> ->]. eexists; split; [apply marker_watch|done].
  - apply pair_starts_Some in H as [-> ->]. eexists; split; [apply marker_amp_v|done].
Qed.

Lemma marker_complete mk r : is_marker mk -> marker (mk ++ r) = Some (length mk, r).
Proof.
  destruct 1 as [d Hd| |w Hw| | |]; try (vm_compute; reflexivity).
  - rewrite <- app_assoc, <- app_comm_cons.
    unfold marker, after_youtu_be.
    by rewrite starts_app, Hd, starts_app.
  - rewrite <- app_assoc, <- app_comm_cons.
    set (t := w :: u16 "/" ++ r). unfold marker.
    change (after_youtu_be (u16 "u/" ++ t)) with (@None (nat * jsstring)).
    change (starts (u16 "v/") (u16 "u/" ++ t)) with (@None jsstring).
    unfold after_u. rewrite starts_app. subst t. cbv beta iota.
    by rewrite Hw, starts_app.
Qed.

(** At most one marker starts at a given place. *)
Lemma marker_unique mk1 r1 mk2 r2 :
  is_marker mk1 -> is_marker mk2 -> mk1 ++ r1 = mk2 ++ r2 -> mk1 = mk2 /\ r1 = r2.
Proof.
  intros H1 H2 E.
  pose proof (marker_complete mk1 r1 H1) as M1.
  pose proof (marker_complete mk2 r2 H2) as M2.
  rewrite E, M2 in M1. injection M1 as Hl ->.
  split; [|done]. by apply app_inv_tail in E.
Qed.

Lemma is_marker_nonempty mk : is_marker mk -> mk <> [].
Proof. by destruct 1. Qed.

Lemma last_marker_None s :
  last_marker s = None -> forall pre mk r, ~ marker_at s pre mk r.
Proof.
  induction s as [|u s IH]; cbn [last_marker]; intros H pre mk r (E & Hpre & Hmk).
  - destruct pre; [|done]. simpl in E. subst.
    apply (marker_complete _ r) in Hmk. rewrite <- E in Hmk. by rewrite Hmk in H.
  - destruct pre as [|v pre].
    + simpl in E. apply (marker_complete _ r) in Hmk. rewrite <- E in Hmk.
      destruct (dot u); [apply orelse_Some_None in H as [_ H]|];
        by rewrite Hmk in H.
    + injection E as <- E. apply Forall_cons in Hpre as [Hv Hpre].
      rewrite Hv in H. apply orelse_Some_None in H as [H _].
      by apply (IH H pre mk r).
Qed.

Lemma last_marker_Some s r :
  last_marker s = Some r -> exists pre mk, marker_at s pre mk r /\ latest s pre.
Proof.
  revert r. induction s as [|u s IH]; cbn [last_marker]; intros r H.
  - by vm_compute in H.
  - assert (snd <$> marker (u :: s) = Some r ->
            (forall pre mk r', ~ marker_at (u :: s) (u :: pre) mk r') ->
            exists pre mk, marker_at (u :: s) pre mk r /\ latest (u :: s) pre) as Hhead.
    { intros Hm Hno. destruct (marker (u :: s)) as [[n r']|] eqn:M; [|done].
      injection Hm as ->. apply marker_Some in M as (mk & Hmk & E & _).
      exists [], mk. split; [by split; [|split; [constructor|]]|].
      intros [|v pre'] mk' r' Hat; [done|].
      destruct Hat as (E' & Hpre' & Hmk').
      assert (v = u) as -> by (simpl in E'; congruence).
      by destruct (Hno pre' mk' r'). }
    destruct (dot u) eqn:Hu.
    + apply orelse_Some in H as [H|[Hn H]].
      * apply IH in H as (pre & mk & (E & Hpre & Hmk) & Hlast).
        exists (u :: pre), mk. split.
        { split; [by rewrite E|]. split; [by constructor|done]. }
        intros [|v pre'] mk' r' (E' & Hpre' & Hmk'); simpl; [lia|].
        injection E' as <- E'. apply Forall_cons in Hpre' as [_ Hpre'].
        specialize (Hlast pre' mk' r' (conj E' (conj Hpre' Hmk'))). lia.
      * apply Hhead; [done|].
        intros pre mk r' (E & Hpre & Hmk). injection E as E.
        apply Forall_cons in Hpre as [_ Hpre].
        by apply (last_marker_None s Hn pre mk r').
    + apply Hhead; [done|].
      intros pre mk r' (_ & Hpre & _). apply Forall_cons in Hpre as [Hpre _].
      congruence.
Qed.

Lemma latest_unique u p1 m1 r1 p2 m2 r2 :
  marker_at u p1 m1 r1 -> latest u p1 ->
  marker_at u p2 m2 r2 -> latest u p2 ->
  p1 = p2 /\ m1 = m2 /\ r1 = r2.
Proof.
  intros H1 L1 H2 L2.
  pose proof (L1 _ _ _ H2). pose proof (L2 _ _ _ H1).
  destruct H1 as (E1 & _ & M1), H2 as (E2 & _ & M2).
  rewrite E1 in E2. apply app_inj_1 in E2 as [-> E2]; [|lia].
  split; [done|]. by apply marker_unique.
Qed.

Lemma last_marker_iff s r :
  last_marker s = Some r <-> exists pre mk, marker_at s pre mk r /\ latest s pre.
Proof.
  split; [apply last_marker_Some|].
  intros (pre & mk & Hat & Hlast).
  destruct (last_marker s) as [r0|] eqn:E.
  - apply last_marker_Some in E as (pre0 & mk0 & Hat0 & Hlast0).
    by destruct (latest_unique _ _ _ _ _ _ _ Hat Hlast Hat0 Hlast0) as (_ & _ & ->).
  - by destruct (last_marker_None s E pre mk r).
Qed.

(** The run of a class is the prefix that ends where the class does. *)
Lemma run_of_iff p s g :
  run_of p s = g <->
  exists r, s = g ++ r /\ Forall (fun c => p c = true) g /\
            match r with [] => True | d :: _ => p d = false end.
Proof.
  revert g. induction s as [|u s IH]; intros g; simpl.
  - split.
    + intros <-. by exists [].
    + intros (r & E & _). symmetry in E. by apply app_eq_nil in E as [-> _].
  - destruct (p u) eqn:Hu; split.
    + intros <-. destruct (proj1 (IH _) eq_refl) as (r & E & Hg & Hr).
      exists r. split; [simpl; congruence|]. split; [by constructor|done].
    + intros (r & E & Hg & Hr). destruct g as [|v g].
      * simpl in E. subst r. congruence.
      * injection E as <- E. apply Forall_cons in Hg as [_ Hg].
        f_equal. apply IH. eauto.
    + intros <-. exists (u :: s). by split; [|split; [constructor|]].
    + intros (r & E & Hg & Hr). destruct g as [|v g]; [done|].
      injection E as <- E. apply Forall_cons in Hg as [Hv _]. congruence.
Qed.

Lemma getYouTubeVideoId_recognized u id :
  getYouTubeVideoId (Some u) = Some id <-> recognized u id.
Proof.
  rewrite getYouTubeVideoId_extract. unfold extract, recognized. split.
  - destruct (last_marker u) as [r|] eqn:E; [|done].
    cbv zeta. destruct (Nat.eqb_spec (length (run_of not_delim r)) 11) as [Hl|]; [|done].
    intros [= <-]. apply last_marker_Some in E as (pre & mk & Hat & Hlast).
    destruct (proj1 (run_of_iff not_delim r _) eq_refl) as (r' & Er & Hg & Hr).
    exists pre, mk, r'. rewrite <- Er. done.
  - intros (pre & mk & r & Hat & Hlast & Hid & Hr & Hlen).
    assert (last_marker u = Some (id ++ r)) as -> by (apply last_marker_iff; eauto).
    assert (run_of not_delim (id ++ r) = id) as -> by (apply run_of_iff; eauto).
    by rewrite Hlen.
Qed.

(** C1, as the code has it.  The extractor returns [id] exactly when [id] is
    the segment that follows the latest marker on the first line of the
    input ([youtu], any one unit, [be/]; [v/]; [u/], a word character, [/];
    [embed/]; [watch?v=]; [&v=]), runs up to the next [#], [&] or [?] or to
    the end, and is 11 units long; it returns null for every other string,
    for the empty string and for null. *)
Theorem extractor_returns_latest_marker_segment :
  getYouTubeVideoId None = None /\
  getYouTubeVideoId (Some []) = None /\
  (forall u id, getYouTubeVideoId (Some u) = Some id <-> recognized u id) /\
  (forall u, getYouTubeVideoId (Some u) = None <-> forall id, ~ recognized u id).
Proof.
  split; [done|]. split; [done|]. split; [apply getYouTubeVideoId_recognized|].
  intros u. split.
  - intros H id Hid%getYouTubeVideoId_recognized. congruence.
  - intros H. destruct (getYouTubeVideoId (Some u)) as [id|] eqn:E; [|done].
    by apply getYouTubeVideoId_recognized, H in E.
Qed.

End Extractor.

(** ** The handlers *)

Section HandlerFacts.

Variable host : Host.

Lemma run_try_finally {A} (p : Proc A) f env n s :
  final (run (try_finally p (upd f)) env n s) = f (final (run p env n s)) /\
  trace (run (try_finally p (upd f)) env n s) = trace (run p env n s) /\
  outcome (run (try_finally p (upd f)) env n s) = outcome (run p env n s).
Proof.
  revert n s. induction p as [a|e|g k IH|c k IH]; intros n s; simpl;
    [done|done|apply IH|].
  by destruct (IH (settle env n c) (S n) (meanwhile env n s)) as (-> & -> & ->).
Qed.

(** C3. However the request settles, the summarizing flag of the link is
    [true] in the state left to render when the handler first suspends (at
    the generation request), and [false] once the handler has settled.  The
    environment is arbitrary: every way the request, the reading of its
    body and the update of the store can resolve or reject is covered. *)
Theorem summarizing_flag_set_then_cleared st linkId linkTitle linkUrl env :
  ready st ->
  let r := run (handleGetSummary host st linkId linkTitle linkUrl) env 0 st in
  (exists s0 later,
      trace r = (s0, Fetch apiUrl (payload linkTitle linkUrl)) :: later /\
      isSummarizing s0 !! linkId = Some true /\
      summaryButtonDisabled s0 linkId = true) /\
  isSummarizing (final r) !! linkId = Some false /\
  summaryButtonDisabled (final r) linkId = false.
Proof.
  intros Hr. unfold handleGetSummary. rewrite Hr.
  cbn [run bind mbind upd Proc_bind].
  match goal with
  | |- context [run (try_finally ?p (upd ?f)) env 0 ?s] =>
      destruct (run_try_finally p f env 0 s) as (Hf & Ht & _)
  end.
  cbv zeta. rewrite Hf, Ht. split.
  - cbn [run bind mbind try_catch await Proc_bind trace].
    eexists _, _. split; [done|].
    unfold summaryButtonDisabled, summarizing. cbn [isSummarizing setSummaries setIsSummarizing].
    by rewrite lookup_insert_eq.
  - unfold summaryButtonDisabled, summarizing. cbn [isSummarizing setIsSummarizing].
    by rewrite lookup_insert_eq.
Qed.

Lemma has_parts_generation_response S ps cs :
  has_parts host (generation_response S ps cs) = inr true.
Proof. vm_compute. reflexivity. Qed.

Lemma first_text_generation_response S ps cs :
  first_text (generation_response S ps cs) = inr (JStr S).
Proof. vm_compute. reflexivity. Qed.

Ltac run_handler :=
  cbn [run bind mbind try_finally try_catch upd await eval Proc_bind
       final trace outcome negb].

Lemma get_member (v : JsVal) (k : string) :
  is_nullish v = false -> k <> "length"%string -> get v k = inr (member v k).
Proof.
  intros Hv Hk. destruct v; try done; cbn [get member]; by rewrite decide_False.
Qed.

Lemma truthy_not_nullish v : truthy v = true -> is_nullish v = false.
Proof. by destruct v. Qed.

Lemma member_not_nullish v k w : member v k = w -> is_nullish w = false -> is_nullish v = false.
Proof. destruct v; try done; intros <-; done. Qed.

Ltac condition :=
  cbn [mbind result_bind get get0 truthy negb length gt_zero Z.of_nat Z.ltb Z.compare
       Pos.of_succ_nat].

Ltac readable :=
  first [ discriminate | done | by eapply member_not_nullish | by apply truthy_not_nullish ].

Lemma lacks_parts_has_parts body : lacks_parts body -> has_parts host body = inr false.
Proof.
  destruct 1 as [result Hn Hc|result Hc|result first cs Hc Hf Hct
                |result first cs Hc Hct Hp|result first cs Hc Hp];
    unfold has_parts.
  - rewrite get_member by readable. condition. by rewrite Hc.
  - rewrite (get_member result) by readable. rewrite Hc. by condition.
  - rewrite (get_member result) by readable. rewrite Hc. condition.
    rewrite get_member by readable. condition. by rewrite Hct.
  - rewrite (get_member result) by readable. rewrite Hc. condition.
    assert (is_nullish first = false) as Hf by (by destruct first).
    rewrite (get_member first) by readable. condition. rewrite Hct. condition.
    rewrite get_member by readable. condition. by rewrite Hp.
  - rewrite (get_member result) by readable. rewrite Hc. condition.
    assert (is_nullish first = false) as Hf by (by destruct first).
    rewrite (get_member first) by readable. condition.
    destruct (member first "content") as [| | | | | |ctf] eqn:E; try done.
    condition. cbn [member] in Hp. rewrite Hp. by condition.
Qed.

Lemma null_read_has_parts body k :
  null_read body k -> has_parts host body = inl (type_error JNull (u16 k)).
Proof.
  destruct 1 as [|result cs Hc]; unfold has_parts; [done|].
  rewrite (get_member result) by readable. rewrite Hc. by condition.
Qed.

Ltac map_lookups :=
  unfold summaryButtonDisabled, summarizing, summary_of;
  cbn [summaries isSummarizing setSummaries setIsSummarizing];
  rewrite ?lookup_insert_eq.

(** The steps of [handleGetSummary] up to the update of the store, on a
    success response with the payload of the specification. *)
Ltac well_formed_path Hr Hf Hok Hj :=
  unfold handleGetSummary; rewrite Hr;
  run_handler; rewrite Hf; run_handler; rewrite Hok; run_handler;
  rewrite Hj; run_handler; rewrite has_parts_generation_response; run_handler;
  rewrite first_text_generation_response; run_handler;
  cbv zeta; unfold calls; cbn [trace fmap list_fmap snd].

(** C2. On a success response whose payload is
    [{candidates: [{content: {parts: [{text: S}]}}]}], the handler sets the
    link's summary to [S] and issues the update-summary call of that link's
    document with [S]; the state left to render while that call is awaited
    shows [S], and when the call resolves (nothing else writing the link's
    summary meanwhile) the settled state shows [S] too. *)
Theorem generated_summary_displayed_and_persisted
    st linkId linkTitle linkUrl env resp S ps cs :
  ready st ->
  settle env 0 (Fetch apiUrl (payload linkTitle linkUrl)) = inr resp ->
  ok resp = true ->
  settle env 1 (ResponseJson resp) = inr (generation_response S ps cs) ->
  let r := run (handleGetSummary host st linkId linkTitle linkUrl) env 0 st in
  let write :=
    UpdateDoc (u16 "artifacts/" ++ appId host ++ u16 "/users/" ++ hole (userId st)
               ++ u16 "/laterTubeLinks/" ++ linkId) (JStr S) in
  calls r = [Fetch apiUrl (payload linkTitle linkUrl); ResponseJson resp; write] /\
  (exists s2, trace r !! 2 = Some (s2, write) /\ summary_of s2 linkId = JStr S) /\
  (settle env 2 write = inr tt -> keeps_summary env 2 linkId ->
   summary_of (final r) linkId = JStr S).
Proof.
  intros Hr Hf Hok Hj. well_formed_path Hr Hf Hok Hj.
  split; [|split].
  - by destruct (settle env 2 _) as [e|[]].
  - eexists. split; [done|]. by map_lookups.
  - intros -> Hkeep. run_handler. unfold summary_of.
    cbn [summaries setIsSummarizing]. rewrite Hkeep. by map_lookups.
Qed.

(** C5, as the code has it.  When generation succeeds and the
    update-summary call then rejects with error [e], the summary [S] that
    was displayed while the call was awaited is replaced, for that link, by
    the text "Error: " followed by the message of [e] (or by "Failed to get
    summary." when the message is empty); the banner's [error] is not
    written. *)
Theorem persistence_failure_replaces_summary
    st linkId linkTitle linkUrl env resp S ps cs e :
  ready st ->
  settle env 0 (Fetch apiUrl (payload linkTitle linkUrl)) = inr resp ->
  ok resp = true ->
  settle env 1 (ResponseJson resp) = inr (generation_response S ps cs) ->
  let write :=
    UpdateDoc (u16 "artifacts/" ++ appId host ++ u16 "/users/" ++ hole (userId st)
               ++ u16 "/laterTubeLinks/" ++ linkId) (JStr S) in
  settle env 2 write = inl e ->
  let r := run (handleGetSummary host st linkId linkTitle linkUrl) env 0 st in
  (exists s2, trace r !! 2 = Some (s2, write) /\ summary_of s2 linkId = JStr S /\
              error (final r) = error (meanwhile env 2 s2)) /\
  summary_of (final r) linkId =
    JStr (u16 "Error: " ++
          match message e with [] => u16 "Failed to get summary." | m => m end).
Proof.
  intros Hr Hf Hok Hj write He. subst write. well_formed_path Hr Hf Hok Hj.
  rewrite He. run_handler. split.
  - eexists. split; [done|]. split; [by map_lookups|done].
  - by map_lookups.
Qed.

Lemma error_text_not_generating m : u16 "Error: " ++ m <> GENERATING.
Proof. discriminate. Qed.

Lemma label_of_error_text (s : AppState) linkId m :
  summarizing s linkId = false ->
  summary_of s linkId = JStr (u16 "Error: " ++ m) ->
  summaryButtonLabel s linkId = inr (u16 "Get Summary").
Proof.
  intros Hf Hs. unfold summaryButtonLabel. rewrite Hf, Hs.
  cbn [truthy app u16 negb]. rewrite bool_decide_eq_false_2; [done|].
  apply error_text_not_generating.
Qed.

(** C8. On a non-success response the summary of the link becomes a text
    that starts with "Error:", whether or not the body of the response can
    be read; the button is enabled again and carries the label of a summary
    not yet obtained, "Get Summary", not the label "Regenerate Summary" of
    an obtained one; nothing is written to the store. *)
Theorem http_failure_shows_error st linkId linkTitle linkUrl env resp :
  ready st ->
  settle env 0 (Fetch apiUrl (payload linkTitle linkUrl)) = inr resp ->
  ok resp = false ->
  let r := run (handleGetSummary host st linkId linkTitle linkUrl) env 0 st in
  (exists t, summary_of (final r) linkId = JStr t /\
             startsWith t (u16 "Error:") = true /\
             shownSummary (final r) linkId = Some (JStr t)) /\
  summaryButtonDisabled (final r) linkId = false /\
  summaryButtonLabel (final r) linkId = inr (u16 "Get Summary") /\
  calls r = [Fetch apiUrl (payload linkTitle linkUrl); ResponseJson resp].
Proof.
  intros Hr Hf Hok. unfold handleGetSummary. rewrite Hr.
  run_handler. rewrite Hf. run_handler. rewrite Hok. run_handler.
  cbv zeta. unfold calls. cbn [trace fmap list_fmap snd].
  destruct (settle env 1 (ResponseJson resp)) as [e|errorData]; run_handler;
    [|destruct (to_string _ _) as [e|detail]; run_handler];
    (split; [|split; [|split]];
     [ eexists; unfold shownSummary; map_lookups; by split; [|split]
     | by map_lookups
     | eapply label_of_error_text; by map_lookups
     | done ]).
Qed.


(** *** Adding a link *)

Lemma trimStart_nil s : trimStart s = [] <-> Forall (fun u => is_space u = true) s.
Proof.
  induction s as [|u s IH]; simpl; [by split|].
  destruct (is_space u) eqn:Hu.
  - rewrite IH. split; [by constructor|]. by intros [_ ?]%Forall_cons.
  - split; [done|]. intros [? _]%Forall_cons. congruence.
Qed.

Lemma trimStart_suffix s : exists pre, s = pre ++ trimStart s /\
                                     Forall (fun u => is_space u = true) pre.
Proof.
  induction s as [|u s (pre & E & Hpre)]; simpl; [by exists []|].
  destruct (is_space u) eqn:Hu; [|by exists []].
  exists (u :: pre). split; [simpl; congruence|by constructor].
Qed.

(** [!s.trim()] holds exactly of the strings made of white space only. *)
Lemma blank_iff s : blank s = true <-> Forall (fun u => is_space u = true) s.
Proof.
  unfold blank, trim.
  destruct (trimStart_suffix s) as (pre & E & Hpre).
  split.
  - destruct (reverse (trimStart (reverse (trimStart s)))) eqn:Hrev; [|done]. intros _.
    apply (f_equal reverse) in Hrev. rewrite reverse_involutive in Hrev.
    change (reverse []) with (@nil N) in Hrev.
    apply trimStart_nil in Hrev. rewrite Forall_reverse in Hrev.
    rewrite E. by apply Forall_app.
  - intros Hs. apply trimStart_nil in Hs. by rewrite Hs.
Qed.

Lemma getYouTubeVideoId_length u v :
  getYouTubeVideoId (Some u) = Some v -> length v = 11.
Proof.
  rewrite getYouTubeVideoId_extract. unfold extract.
  destruct (last_marker u) as [r|]; [|done]. cbv zeta.
  destruct (Nat.eqb_spec (length (run_of not_delim r)) 11); [|done].
  by intros [= <-].
Qed.

Example blank_empty : blank [] = true /\ blank (u16 "  ") = true /\ blank (u16 " a ") = false.
Proof. vm_compute. done. Qed.

Ltac add_link_path :=
  unfold handleAddLink; cbv zeta;
  repeat match goal with
  | H : blank _ = _ |- _ => rewrite H
  | H : not_ready _ = _ |- _ => rewrite H
  | H : ready _ |- _ => rewrite H
  | H : getYouTubeVideoId _ = _ |- _ => rewrite H
  end;
  cbn [orb negb truthy_str]; run_handler; unfold calls; cbn [trace fmap list_fmap snd].

(** C6, as the code has it.  The add is refused with an error message and
    without any call to the store when the url or the title is blank (empty
    or white space only), when the session is not ready, or when the
    extractor finds no id in the url; the three checks are made in that
    order and each has its message.  Otherwise the creation call is issued,
    with the url, the title, the extracted id, the user and a null summary. *)
Theorem add_link_validation st env :
  let r := run (handleAddLink host st) env 0 st in
  ((blank (newLinkUrl st) = true \/ blank (newLinkTitle st) = true) ->
     calls r = [] /\ error (final r) = u16 "Both URL and Title are required.") /\
  (blank (newLinkUrl st) = false -> blank (newLinkTitle st) = false ->
   not_ready st = true ->
     calls r = [] /\
     error (final r) = u16 "Database not ready or user not authenticated.") /\
  (blank (newLinkUrl st) = false -> blank (newLinkTitle st) = false ->
   ready st -> getYouTubeVideoId (Some (newLinkUrl st)) = None ->
     calls r = [] /\
     error (final r) =
       u16 "Invalid YouTube URL. Please enter a valid YouTube video link.") /\
  (forall v,
   blank (newLinkUrl st) = false -> blank (newLinkTitle st) = false ->
   ready st -> getYouTubeVideoId (Some (newLinkUrl st)) = Some v ->
     calls r =
       [AddDoc (u16 "artifacts/" ++ appId host ++ u16 "/users/" ++ hole (userId st)
                ++ u16 "/laterTubeLinks")
               (mkLinkFields (newLinkUrl st) (newLinkTitle st) (Some v) (userId st) JNull)]).
Proof.
  cbv zeta. split; [|split; [|split]].
  - intros [H|H]; add_link_path; [done|]. by rewrite orb_true_r.
  - intros H1 H2 H3. by add_link_path.
  - intros H1 H2 H3 H4. by add_link_path.
  - intros v H1 H2 H3 H4. pose proof (getYouTubeVideoId_length _ _ H4) as Hl.
    destruct v as [|c v]; [done|]. add_link_path.
    by destruct (settle env 0 _) as [e|[]].
Qed.

(** C7. After the creation call resolves, the two fields of the form are
    empty and the form is closed.  After it rejects, [error] is the
    add-failure message and the handler has written neither field nor the
    form's visibility: they are as the wait left them, and with no other
    event during the wait they hold what was submitted. *)
Theorem add_link_outcome st env v :
  ready st ->
  blank (newLinkUrl st) = false -> blank (newLinkTitle st) = false ->
  getYouTubeVideoId (Some (newLinkUrl st)) = Some v ->
  let r := run (handleAddLink host st) env 0 st in
  let create :=
    AddDoc (u16 "artifacts/" ++ appId host ++ u16 "/users/" ++ hole (userId st)
            ++ u16 "/laterTubeLinks")
           (mkLinkFields (newLinkUrl st) (newLinkTitle st) (Some v) (userId st) JNull) in
  (settle env 0 create = inr tt ->
     newLinkUrl (final r) = [] /\ newLinkTitle (final r) = [] /\
     showAddForm (final r) = false) /\
  (forall e, settle env 0 create = inl e ->
     let waited := meanwhile env 0 (setError [] st) in
     error (final r) = u16 "Failed to add link. Please try again." /\
     newLinkUrl (final r) = newLinkUrl waited /\
     newLinkTitle (final r) = newLinkTitle waited /\
     showAddForm (final r) = showAddForm waited /\
     (quiet env ->
        newLinkUrl (final r) = newLinkUrl st /\
        newLinkTitle (final r) = newLinkTitle st /\
        showAddForm (final r) = showAddForm st)).
Proof.
  intros H1 H2 H3 H4. pose proof (getYouTubeVideoId_length _ _ H4) as Hl.
  destruct v as [|c v]; [done|]. add_link_path. split.
  - by intros ->.
  - intros e ->. run_handler. cbv zeta. do 4 (split; [done|]).
    intros Hq. cbn [newLinkUrl newLinkTitle showAddForm setError]. by rewrite Hq.
Qed.

(** *** Deleting a link *)

Lemma initialSummaries_other (fetchedLinks : list Link) linkId :
  linkId ∉ id <$> fetchedLinks -> initialSummaries fetchedLinks !! linkId = None.
Proof.
  unfold initialSummaries.
  assert (forall m : gmap jsstring JsVal,
            linkId ∉ id <$> fetchedLinks -> m !! linkId = None ->
            foldl (fun m link =>
                     if truthy (f_summary (data link))
                     then <[id link := f_summary (data link)]> m
                     else m) m fetchedLinks !! linkId = None) as H.
  { induction fetchedLinks as [|l ls IH]; intros m Hin Hm; simpl; [done|].
    rewrite fmap_cons in Hin. apply not_elem_of_cons in Hin as [Hne Hin].
    apply IH; [done|].
    destruct (truthy (f_summary (data l))); [|done].
    by rewrite lookup_insert_ne. }
  intros Hin. by apply H.
Qed.

(** A snapshot that does not list a link brings no summary for it. *)
Lemma onLinksSnapshot_other fetchedLinks (s : AppState) linkId :
  linkId ∉ id <$> fetchedLinks ->
  summaries (onLinksSnapshot fetchedLinks s) !! linkId = summaries s !! linkId.
Proof.
  intros Hin. unfold onLinksSnapshot. cbn [summaries setError setIsLoading setSummaries setLinks].
  rewrite lookup_union_r; [done|]. by apply initialSummaries_other.
Qed.

(** C4, as the code has it.  After the delete call resolves, the link has
    no entry in [summaries], so no summary is rendered for it, and a later
    snapshot that no longer lists the link leaves it so; the handler does
    not write [isSummarizing], which is as the wait left it (and, with no
    other event during the wait, as it was when the delete was triggered). *)
Theorem delete_discards_summary st linkId env :
  ready st ->
  let remove :=
    DeleteDoc (u16 "artifacts/" ++ appId host ++ u16 "/users/" ++ hole (userId st)
               ++ u16 "/laterTubeLinks/" ++ linkId) in
  settle env 0 remove = inr tt ->
  let r := run (handleDeleteLink host st linkId) env 0 st in
  calls r = [remove] /\
  summaries (final r) !! linkId = None /\
  shownSummary (final r) linkId = None /\
  (forall fetchedLinks, linkId ∉ id <$> fetchedLinks ->
     shownSummary (onLinksSnapshot fetchedLinks (final r)) linkId = None) /\
  isSummarizing (final r) = isSummarizing (meanwhile env 0 (setError [] st)) /\
  (quiet env -> isSummarizing (final r) = isSummarizing st).
Proof.
  intros Hr remove Hs. subst remove. unfold handleDeleteLink. rewrite Hr.
  run_handler. rewrite Hs. run_handler. cbv zeta.
  split; [done|]. split; [|split; [|split; [|split]]].
  - cbn [summaries setSummaries]. apply lookup_delete_eq.
  - unfold shownSummary, summary_of. cbn [summaries setSummaries].
    by rewrite lookup_delete_eq.
  - intros fetchedLinks Hin. unfold shownSummary, summary_of.
    rewrite onLinksSnapshot_other by done. cbn [summaries setSummaries].
    by rewrite lookup_delete_eq.
  - done.
  - intros Hq. cbn [isSummarizing setSummaries]. by rewrite Hq.
Qed.

(** *** The paths of the store *)

Lemma segments_from_app cur a b :
  segments_from cur (a ++ 47%N :: b) = segments_from cur a ++ segments b.
Proof.
  revert cur. induction a as [|u a IH]; intros cur; simpl; [done|].
  destruct (N.eqb u 47); [|apply IH]. by rewrite IH.
Qed.

Lemma segments_from_no_slash cur b :
  47%N ∉ b -> segments_from cur b = [reverse cur ++ b].
Proof.
  revert cur. induction b as [|u b IH]; intros cur Hb; simpl.
  - by rewrite app_nil_r.
  - apply not_elem_of_cons in Hb as [Hu Hb].
    destruct (N.eqb_spec u 47) as [->|_]; [done|].
    rewrite IH by done. by rewrite reverse_cons, <- app_assoc.
Qed.

(** A document id has no slash: its path is the collection's, and the id. *)
Lemma segments_doc_path col linkId :
  47%N ∉ linkId -> segments (doc_path col linkId) = segments col ++ [linkId].
Proof.
  intros H. unfold segments, doc_path. change (u16 "/" ++ linkId) with (47%N :: linkId).
  rewrite segments_from_app. unfold segments. by rewrite (segments_from_no_slash [] linkId) by done.
Qed.

Lemma subscribed_path st :
  isAuthReady st = true -> ready st ->
  subscribed host st =
  u16 "artifacts/" ++ appId host ++ u16 "/users/" ++ hole (userId st)
    ++ u16 "/laterTubeLinks".
Proof.
  intros Ha Hr. unfold subscribed, linksSubscription. by rewrite Ha, Hr.
Qed.

Lemma doc_path_subscribed st linkId :
  isAuthReady st = true -> ready st ->
  doc_path (subscribed host st) linkId =
  u16 "artifacts/" ++ appId host ++ u16 "/users/" ++ hole (userId st)
    ++ u16 "/laterTubeLinks/" ++ linkId.
Proof.
  intros Ha Hr. rewrite subscribed_path by done. unfold doc_path.
  change (u16 "/laterTubeLinks/") with (u16 "/laterTubeLinks" ++ u16 "/").
  by rewrite <- !app_assoc.
Qed.

Ltac in_calls H :=
  unfold calls in H; cbn [trace fmap list_fmap snd] in H;
  repeat (apply elem_of_cons in H as [H|H]; [try discriminate H|]);
  try (by apply elem_of_nil in H).

Lemma handleAddLink_calls st env p f :
  AddDoc p f ∈ calls (run (handleAddLink host st) env 0 st) ->
  p = u16 "artifacts/" ++ appId host ++ u16 "/users/" ++ hole (userId st)
        ++ u16 "/laterTubeLinks".
Proof.
  unfold handleAddLink.
  destruct (blank (newLinkUrl st) || blank (newLinkTitle st))%bool;
    [intros H; by in_calls H|].
  destruct (not_ready st); [intros H; by in_calls H|].
  cbv zeta. destruct (negb (truthy_str _)); [intros H; by in_calls H|].
  run_handler. destruct (settle env 0 _) as [e|[]]; run_handler;
    intros H; in_calls H; by injection H.
Qed.

Lemma handleDeleteLink_calls st linkId env p :
  DeleteDoc p ∈ calls (run (handleDeleteLink host st linkId) env 0 st) ->
  p = u16 "artifacts/" ++ appId host ++ u16 "/users/" ++ hole (userId st)
        ++ u16 "/laterTubeLinks/" ++ linkId.
Proof.
  unfold handleDeleteLink.
  destruct (not_ready st); [intros H; by in_calls H|].
  run_handler. destruct (settle env 0 _) as [e|[]]; run_handler;
    intros H; in_calls H; by injection H.
Qed.

Lemma handleGetSummary_calls st linkId linkTitle linkUrl env p v :
  UpdateDoc p v ∈ calls (run (handleGetSummary host st linkId linkTitle linkUrl) env 0 st) ->
  p = u16 "artifacts/" ++ appId host ++ u16 "/users/" ++ hole (userId st)
        ++ u16 "/laterTubeLinks/" ++ linkId.
Proof.
  unfold handleGetSummary.
  destruct (not_ready st); [intros H; by in_calls H|].
  run_handler. destruct (settle env 0 _) as [e|resp]; run_handler;
    [intros H; by in_calls H|].
  destruct (ok resp); run_handler;
    (destruct (settle env 1 _) as [e|body]; run_handler;
     [intros H; by in_calls H|]);
    [|destruct (to_string _ _) as [e|detail]; run_handler; intros H; by in_calls H].
  destruct (has_parts host body) as [e|[|]]; run_handler;
    [intros H; by in_calls H| |intros H; by in_calls H].
  destruct (first_text body) as [e|t]; run_handler; [intros H; by in_calls H|].
  destruct (settle env 2 _) as [e|[]]; run_handler;
    intros H; in_calls H; by injection H.
Qed.

(** C10. In a session whose subscription is open, whatever state of that
    session a handler is triggered in (the same user), every creation call
    names the collection that the subscription queries, and every delete
    and update-summary call names the document [linkId] of that collection;
    for a document id (no slash) that path has the segments of the
    collection's path followed by the id. *)
Theorem handlers_address_subscribed_collection
    sub st linkId linkTitle linkUrl env :
  isAuthReady sub = true -> ready sub ->
  userId st = userId sub ->
  linksSubscription host sub =
    Some (mkQuery (subscribed host sub) (u16 "addedAt") (u16 "desc")) /\
  (forall p f, AddDoc p f ∈ calls (run (handleAddLink host st) env 0 st) ->
               p = subscribed host sub) /\
  (forall p, DeleteDoc p ∈ calls (run (handleDeleteLink host st linkId) env 0 st) ->
             p = doc_path (subscribed host sub) linkId) /\
  (forall p v,
     UpdateDoc p v ∈
       calls (run (handleGetSummary host st linkId linkTitle linkUrl) env 0 st) ->
     p = doc_path (subscribed host sub) linkId) /\
  (47%N ∉ linkId ->
   segments (doc_path (subscribed host sub) linkId) =
   segments (subscribed host sub) ++ [linkId]).
Proof.
  intros Ha Hr Hu. split; [|split; [|split; [|split]]].
  - unfold subscribed, linksSubscription. by rewrite Ha, Hr.
  - intros p f H%handleAddLink_calls. by rewrite subscribed_path, <- Hu.
  - intros p H%handleDeleteLink_calls. by rewrite doc_path_subscribed, <- Hu.
  - intros p v H%handleGetSummary_calls. by rewrite doc_path_subscribed, <- Hu.
  - apply segments_doc_path.
Qed.

End HandlerFacts.

(** ** The properties at sample inputs *)

(** The three examples of the specification. *)
Example extractor_watch :
  getYouTubeVideoId (Some (u16 "https://www.youtube.com/watch?v=dQw4w9WgXcQ"))
  = Some (u16 "dQw4w9WgXcQ").
Proof. vm_compute. reflexivity. Qed.

Example extractor_short :
  getYouTubeVideoId (Some (u16 "https://youtu.be/dQw4w9WgXcQ?t=5"))
  = Some (u16 "dQw4w9WgXcQ").
Proof. vm_compute. reflexivity. Qed.

Example extractor_other :
  getYouTubeVideoId (Some (u16 "https://example.com/video")) = None.
Proof. vm_compute. reflexivity. Qed.

(** The marker need not follow a slash, and the dot of [youtu.be] stands for
    any unit. *)
Example extractor_no_slash :
  getYouTubeVideoId (Some (u16 "tv/abcdefghijk")) = Some (u16 "abcdefghijk") /\
  getYouTubeVideoId (Some (u16 "youtu_be/abcdefghijk")) = Some (u16 "abcdefghijk").
Proof. vm_compute. done. Qed.

Lemma video_segment : Forall (fun c => not_delim c = true) Sample.video.
Proof. repeat constructor. Qed.

(** C1 as stated fails: a url of the shape [?v=<id>] without [watch] before
    it has an 11-unit id segment and yields null; so does a url of the shape
    [watch?v=<id>] when a later, shorter [&v=] follows. *)
Lemma extractor_counterexample :
  (spec_matches (u16 "https://www.youtube.com/?v=dQw4w9WgXcQ") Sample.video /\
   getYouTubeVideoId (Some (u16 "https://www.youtube.com/?v=dQw4w9WgXcQ")) = None) /\
  (spec_matches (u16 "https://www.youtube.com/watch?v=dQw4w9WgXcQ&v=abc") Sample.video /\
   getYouTubeVideoId (Some (u16 "https://www.youtube.com/watch?v=dQw4w9WgXcQ&v=abc")) = None).
Proof.
  split; (split; [|vm_compute; reflexivity]).
  - exists (u16 "https://www.youtube.com/"), (u16 "?v="), [].
    split; [reflexivity|]. split; [apply shape_query_v|]. split; [reflexivity|].
    split; [apply video_segment|exact I].
  - exists (u16 "https://www.youtube.com/watch"), (u16 "?v="), (u16 "&v=abc").
    split; [reflexivity|]. split; [apply shape_query_v|]. split; [reflexivity|].
    split; [apply video_segment|reflexivity].
Qed.

(** Witness of C2: a generated summary "S", saved. *)
Lemma generated_summary_witness :
  ready Sample.st0 /\
  summary_of Sample.summarized Sample.link = JStr (u16 "S").
Proof.
  split; [reflexivity|].
  refine (proj2 (proj2 (generated_summary_displayed_and_persisted
    Sample.host Sample.st0 Sample.link Sample.title Sample.url
    (Sample.env 200 (generation_response (u16 "S") [] []) (inr tt))
    (mkResponse 200) (u16 "S") [] [] eq_refl eq_refl eq_refl eq_refl)) eq_refl _).
  intros s. reflexivity.
Defined.

(** Witness of C3. *)
Lemma summarizing_flag_witness :
  ready Sample.st0 /\
  isSummarizing Sample.summarized !! Sample.link = Some false.
Proof.
  split; [reflexivity|].
  exact (proj1 (proj2 (summarizing_flag_set_then_cleared
    Sample.host Sample.st0 Sample.link Sample.title Sample.url
    (Sample.env 200 (generation_response (u16 "S") [] []) (inr tt)) eq_refl))).
Defined.

(** C4 as stated fails: after the summary of a link was generated and the
    link then deleted, the link's summary is gone but its entry of
    [isSummarizing] is still in the state. *)
Lemma delete_keeps_flag_counterexample :
  let r := run (handleDeleteLink Sample.host Sample.summarized Sample.link)
               (Sample.env 200 JNull (inr tt)) 0 Sample.summarized in
  calls r = [DeleteDoc (u16 "artifacts/default-laterlink-app/users/uid1/laterTubeLinks/L1")] /\
  summaries (final r) !! Sample.link = None /\
  isSummarizing (final r) !! Sample.link = Some false.
Proof. vm_compute. done. Qed.

(** Witness of C4 as amended. *)
Lemma delete_discards_summary_witness :
  ready Sample.summarized /\
  summaries (final (run (handleDeleteLink Sample.host Sample.summarized Sample.link)
                        (Sample.env 200 JNull (inr tt)) 0 Sample.summarized))
    !! Sample.link = None.
Proof.
  split; [reflexivity|].
  exact (proj1 (proj2 (delete_discards_summary
    Sample.host Sample.summarized Sample.link (Sample.env 200 JNull (inr tt))
    eq_refl eq_refl))).
Defined.

(** C5 as stated fails: the summary "S" is displayed while the update is
    awaited; the update rejects and the display becomes "Error: offline". *)
Lemma persistence_failure_counterexample :
  let r := run (handleGetSummary Sample.host Sample.st0 Sample.link Sample.title Sample.url)
               (Sample.env 200 (generation_response (u16 "S") [] []) (inl Sample.offline))
               0 Sample.st0 in
  (exists s2,
      trace r !! 2 =
        Some (s2, UpdateDoc (u16 "artifacts/default-laterlink-app/users/uid1/laterTubeLinks/L1")
                            (JStr (u16 "S"))) /\
      shownSummary s2 Sample.link = Some (JStr (u16 "S"))) /\
  shownSummary (final r) Sample.link = Some (JStr (u16 "Error: offline")).
Proof. cbv zeta. split; [eexists; split|]; vm_compute; reflexivity. Qed.

(** Witness of C5 as amended. *)
Lemma persistence_failure_witness :
  ready Sample.st0 /\
  summary_of
    (final (run (handleGetSummary Sample.host Sample.st0 Sample.link Sample.title Sample.url)
                (Sample.env 200 (generation_response (u16 "S") [] []) (inl Sample.offline))
                0 Sample.st0))
    Sample.link = JStr (u16 "Error: offline").
Proof.
  split; [reflexivity|].
  exact (proj2 (persistence_failure_replaces_summary
    Sample.host Sample.st0 Sample.link Sample.title Sample.url
    (Sample.env 200 (generation_response (u16 "S") [] []) (inl Sample.offline))
    (mkResponse 200) (u16 "S") [] [] Sample.offline
    eq_refl eq_refl eq_refl eq_refl eq_refl)).
Defined.

(** C6 as stated fails: the title is not empty (three spaces), the url is
    not empty and holds an id, the session is ready, and no creation call
    is issued. *)
Lemma add_link_counterexample :
  let st := Sample.form Sample.url (u16 "   ") in
  let r := run (handleAddLink Sample.host st) (Sample.env 200 JNull (inr tt)) 0 st in
  newLinkTitle st = u16 "   " /\
  getYouTubeVideoId (Some (newLinkUrl st)) = Some Sample.video /\
  not_ready st = false /\
  calls r = [] /\
  error (final r) = u16 "Both URL and Title are required.".
Proof. vm_compute. done. Qed.

(** Witness of C6 as amended: a filled-in form is sent to the store. *)
Lemma add_link_validation_witness :
  let st := Sample.form Sample.url Sample.title in
  ready st /\
  calls (run (handleAddLink Sample.host st) (Sample.env 200 JNull (inr tt)) 0 st) =
  [AddDoc (u16 "artifacts/" ++ appId Sample.host ++ u16 "/users/" ++ hole (userId st)
           ++ u16 "/laterTubeLinks")
          (mkLinkFields Sample.url Sample.title (Some Sample.video) (Some Sample.user) JNull)].
Proof.
  cbv zeta. split; [reflexivity|].
  refine (proj2 (proj2 (proj2 (add_link_validation
    Sample.host (Sample.form Sample.url Sample.title)
    (Sample.env 200 JNull (inr tt))))) Sample.video eq_refl eq_refl eq_refl _).
  vm_compute. reflexivity.
Defined.

(** Witness of C7: the same form, accepted by the store. *)
Lemma add_link_outcome_witness :
  let st := Sample.form Sample.url Sample.title in
  let r := run (handleAddLink Sample.host st) (Sample.env 200 JNull (inr tt)) 0 st in
  ready st /\ newLinkUrl (final r) = [] /\ newLinkTitle (final r) = [] /\
  showAddForm (final r) = false.
Proof.
  cbv zeta. split; [reflexivity|].
  refine (proj1 (add_link_outcome
    Sample.host (Sample.form Sample.url Sample.title)
    (Sample.env 200 JNull (inr tt)) Sample.video eq_refl eq_refl eq_refl _) eq_refl).
  vm_compute. reflexivity.
Defined.

(** Witness of C8: the endpoint answers 500. *)
Lemma http_failure_witness :
  let r := run (handleGetSummary Sample.host Sample.st0 Sample.link Sample.title Sample.url)
               (Sample.env 500 JNull (inr tt)) 0 Sample.st0 in
  ready Sample.st0 /\
  summaryButtonLabel (final r) Sample.link = inr (u16 "Get Summary").
Proof.
  cbv zeta. split; [reflexivity|].
  exact (proj1 (proj2 (proj2 (http_failure_shows_error
    Sample.host Sample.st0 Sample.link Sample.title Sample.url
    (Sample.env 500 JNull (inr tt)) (mkResponse 500) eq_refl eq_refl eq_refl)))).
Defined.



(** Witness of C10: the three handlers of the sample session. *)
Lemma handlers_address_witness :
  isAuthReady Sample.st0 = true /\ ready Sample.st0 /\
  linksSubscription Sample.host Sample.st0 =
    Some (mkQuery (subscribed Sample.host Sample.st0) (u16 "addedAt") (u16 "desc")) /\
  segments (doc_path (subscribed Sample.host Sample.st0) Sample.link) =
    segments (subscribed Sample.host Sample.st0) ++ [Sample.link].
Proof.
  split; [reflexivity|]. split; [reflexivity|].
  pose proof (handlers_address_subscribed_collection
    Sample.host Sample.st0 Sample.st0 Sample.link Sample.title Sample.url
    (Sample.env 200 JNull (inr tt)) eq_refl eq_refl eq_refl) as (H1 & _ & _ & _ & H5).
  split; [exact H1|]. apply H5. change Sample.link with [76%N; 49%N]. intros H.
  repeat (apply elem_of_cons in H as [H|H]; [discriminate H|]).
  by apply elem_of_nil in H.
Defined.

(** * More properties of the component *)

(** ** What the handlers write *)

Section Footprints.

Variable host : Host.

Lemma all_upd_mono {A} (P Q : (AppState -> AppState) -> Prop) (p : Proc A) :
  (forall f, P f -> Q f) -> all_upd P p -> all_upd Q p.
Proof. intros HPQ. induction 1; constructor; auto. Qed.

Lemma all_upd_bind {A B} P (p : Proc A) (f : A -> Proc B) :
  all_upd P p -> (forall a, all_upd P (f a)) -> all_upd P (bind p f).
Proof. intros Hp Hf. induction Hp; simpl; try constructor; auto. Qed.

Lemma all_upd_try_catch {A} P (p : Proc A) h :
  all_upd P p -> (forall e, all_upd P (h e)) -> all_upd P (try_catch p h).
Proof. intros Hp Hh. induction Hp; simpl; try constructor; auto. Qed.

Lemma all_upd_try_finally {A} P (p : Proc A) fin :
  all_upd P p -> all_upd P fin -> all_upd P (try_finally p fin).
Proof.
  intros Hp Hfin. induction Hp; simpl; try constructor; auto.
  - apply (all_upd_bind P fin); [done|]. intros _. constructor.
  - apply (all_upd_bind P fin); [done|]. intros _. constructor.
Qed.

Lemma all_upd_upd P f : P f -> all_upd P (upd f).
Proof. intros. by repeat constructor. Qed.

Lemma all_upd_await P c : all_upd P (await c).
Proof. constructor. intros [e|v]; constructor. Qed.

Lemma all_upd_eval {A} P (r : JsError + A) : all_upd P (eval r).
Proof. destruct r; constructor. Qed.

Ltac footprint :=
  repeat first
    [ apply all_upd_upd
    | apply all_upd_await
    | apply all_upd_eval
    | apply all_upd_bind; [|intros ?]
    | apply all_upd_try_catch; [|intros ?]
    | apply all_upd_try_finally
    | constructor
    | progress cbv zeta
    | match goal with |- all_upd _ (if ?b then _ else _) => destruct b end
    | match goal with |- all_upd _ (mbind _ _) => unfold mbind, Proc_bind end ].

Lemma handleAddLink_writes st : all_upd add_write (handleAddLink host st).
Proof. unfold handleAddLink. footprint. Qed.

Lemma handleDeleteLink_writes st linkId :
  all_upd (delete_write linkId) (handleDeleteLink host st linkId).
Proof. unfold handleDeleteLink. footprint. Qed.

Lemma handleGetSummary_writes st linkId linkTitle linkUrl :
  all_upd (summary_write linkId) (handleGetSummary host st linkId linkTitle linkUrl).
Proof. unfold handleGetSummary. footprint. Qed.

(** A property that every setter call of a handler and every other event
    of the waits preserve holds of every state rendered during the run and
    of the settled state. *)
Lemma run_invariant {A} (I : AppState -> Prop) (p : Proc A) env n s :
  all_upd (fun f => forall s, I s -> I (f s)) p ->
  (forall n s, I s -> I (meanwhile env n s)) ->
  I s ->
  I (final (run p env n s)) /\ Forall (fun x => I x.1) (trace (run p env n s)).
Proof.
  intros Hp Hm. revert n s.
  induction Hp as [a|e|f k Hf Hk IH|c k Hk IH]; intros n s Hs; simpl.
  - by split.
  - by split.
  - apply IH. by apply Hf.
  - destruct (IH (settle env n c) (S n) (meanwhile env n s)) as [H1 H2]; [by apply Hm|].
    split; [done|]. by constructor.
Qed.

(** X1. The handlers never write what the session and the subscription
    own: in an environment that leaves the store handle, the user, the
    auth-ready flag, the list of links and the loading flag alone during
    the waits, every state rendered during a run of any of the three
    handlers, and the settled state, has them as they were. *)
Theorem handlers_keep_session st linkId linkTitle linkUrl env n s :
  (forall k s', session_part (meanwhile env k s') = session_part s') ->
  let kept (r : Run unit) :=
    session_part (final r) = session_part s /\
    Forall (fun x => session_part x.1 = session_part s) (trace r) in
  kept (run (handleAddLink host st) env n s) /\
  kept (run (handleDeleteLink host st linkId) env n s) /\
  kept (run (handleGetSummary host st linkId linkTitle linkUrl) env n s).
Proof.
  intros Hm. cbv zeta.
  assert (forall k s', session_part s' = session_part s ->
                       session_part (meanwhile env k s') = session_part s) as Hm'
    by (intros k s' <-; apply Hm).
  split; [|split];
    (apply (run_invariant (fun s' => session_part s' = session_part s));
     [|exact Hm'|reflexivity]).
  - eapply all_upd_mono; [|apply handleAddLink_writes]. intros f [] s0 <-; reflexivity.
  - eapply all_upd_mono; [|apply handleDeleteLink_writes]. intros f [] s0 <-; reflexivity.
  - eapply all_upd_mono; [|apply handleGetSummary_writes]. intros f [] s0 <-; reflexivity.
Qed.

(** X2. A handler working on one link leaves the entries of every other
    link alone: for [y] other than [linkId], in an environment that does
    not touch the cached summary and the flag of [y] during the waits,
    every state rendered during a delete or a summary request of [linkId],
    and the settled state, has them as they were. *)
Theorem handlers_leave_other_links st linkId linkTitle linkUrl y env n s :
  y <> linkId ->
  (forall k s', link_part y (meanwhile env k s') = link_part y s') ->
  let kept (r : Run unit) :=
    link_part y (final r) = link_part y s /\
    Forall (fun x => link_part y x.1 = link_part y s) (trace r) in
  kept (run (handleDeleteLink host st linkId) env n s) /\
  kept (run (handleGetSummary host st linkId linkTitle linkUrl) env n s).
Proof.
  intros Hy Hm. cbv zeta.
  assert (forall k s', link_part y s' = link_part y s ->
                       link_part y (meanwhile env k s') = link_part y s) as Hm'
    by (intros k s' <-; apply Hm).
  split;
    (apply (run_invariant (fun s' => link_part y s' = link_part y s));
     [|exact Hm'|reflexivity]).
  - eapply all_upd_mono; [|apply handleDeleteLink_writes].
    intros f [] s0 <-; unfold link_part; cbn [summaries isSummarizing setError setSummaries];
      by rewrite ?lookup_delete_ne.
  - eapply all_upd_mono; [|apply handleGetSummary_writes].
    intros f [] s0 <-; unfold link_part;
      cbn [summaries isSummarizing setError setSummaries setIsSummarizing];
      by rewrite ?lookup_insert_ne.
Qed.

End Footprints.

(** ** Every way a summary request and a delete can end *)

Section Outcomes.

Variable host : Host.

Ltac step :=
  cbn [run bind mbind try_finally try_catch upd await eval Proc_bind
       final trace outcome negb].

Ltac lookups :=
  unfold summaryButtonDisabled, summarizing, summary_of, shownSummary;
  cbn [summaries isSummarizing setSummaries setIsSummarizing setError];
  rewrite ?lookup_insert_eq, ?lookup_delete_eq.

Lemma shown_message_nonempty e : shown_message e <> [].
Proof. unfold shown_message. by destruct (message e). Qed.

(** X3. A summary request in a ready session ends in one of three ways,
    whatever the endpoint and the store do.  (1) The link's summary is
    "Error: " followed by a non-empty message: the request was rejected, or
    the body could not be read or inspected, or the response was not a
    success, or the update of the store was rejected.  (2) The summary is
    the fixed message and the store was not called.  (3) The condition of
    line 252 held, the text [v] read from the payload was displayed, the one
    update call of the run carried [v] and it resolved.  One request is
    sent, never a second one, and the store is called at most once. *)
Theorem summary_request_outcomes st linkId linkTitle linkUrl env :
  ready st ->
  let r := run (handleGetSummary host st linkId linkTitle linkUrl) env 0 st in
  let request := Fetch apiUrl (payload linkTitle linkUrl) in
  let path := u16 "artifacts/" ++ appId host ++ u16 "/users/" ++ hole (userId st)
                ++ u16 "/laterTubeLinks/" ++ linkId in
  (exists m, m <> [] /\
     summary_of (final r) linkId = JStr (u16 "Error: " ++ m) /\
     (calls r = [request] \/
      (exists resp, calls r = [request; ResponseJson resp]) \/
      (exists resp v e, calls r = [request; ResponseJson resp; UpdateDoc path v] /\
                        settle env 2 (UpdateDoc path v) = inl e))) \/
  (exists resp, summary_of (final r) linkId = JStr COULD_NOT /\
                calls r = [request; ResponseJson resp]) \/
  (exists resp body v,
     settle env 1 (ResponseJson resp) = inr body /\
     has_parts host body = inr true /\ first_text body = inr v /\
     calls r = [request; ResponseJson resp; UpdateDoc path v] /\
     settle env 2 (UpdateDoc path v) = inr tt /\
     (keeps_summary env 2 linkId -> summary_of (final r) linkId = v)).
Proof.
  intros Hr. unfold handleGetSummary. rewrite Hr. cbv zeta. step.
  unfold calls.
  destruct (settle env 0 _) as [e|resp]; step.
  { left. exists (shown_message e). split; [apply shown_message_nonempty|].
    split; [by lookups|]. by left. }
  destruct (ok resp); step.
  - destruct (settle env 1 (ResponseJson resp)) as [e|body] eqn:Hbody; step.
    { left. exists (shown_message e). split; [apply shown_message_nonempty|].
      split; [by lookups|]. right; left. by eexists. }
    destruct (has_parts host body) as [e|[|]] eqn:Hp; step.
    { left. exists (shown_message e). split; [apply shown_message_nonempty|].
      split; [by lookups|]. right; left. by eexists. }
    + destruct (first_text body) as [e|v] eqn:Hv; step.
      { left. exists (shown_message e). split; [apply shown_message_nonempty|].
        split; [by lookups|]. right; left. by eexists. }
      destruct (settle env 2 _) as [e|[]] eqn:Hu; step.
      * left. exists (shown_message e). split; [apply shown_message_nonempty|].
        split; [by lookups|]. right; right. by eexists _, _, _.
      * right; right. exists resp, body, v. do 5 (split; [done|]).
        intros Hk. unfold summary_of. cbn [summaries setIsSummarizing].
        rewrite Hk. by lookups.
    + right; left. exists resp. split; [by lookups|done].
  - left. destruct (settle env 1 (ResponseJson resp)) as [e|body]; step.
    + exists (shown_message e). split; [apply shown_message_nonempty|].
      split; [by lookups|]. right; left. by eexists.
    + destruct (to_string _ _) as [e|detail]; step.
      * exists (shown_message e). split; [apply shown_message_nonempty|].
        split; [by lookups|]. right; left. by eexists.
      * eexists. split; [|split; [by lookups|right; left; by eexists]].
        discriminate.
Qed.

(** X4. When the delete call is rejected, the banner's error is the
    delete-failure message and the handler has written nothing else: the
    cached summaries, that of the link included, are as the wait left
    them. *)
Theorem delete_failure_keeps_summary st linkId env e :
  ready st ->
  let remove :=
    DeleteDoc (u16 "artifacts/" ++ appId host ++ u16 "/users/" ++ hole (userId st)
               ++ u16 "/laterTubeLinks/" ++ linkId) in
  settle env 0 remove = inl e ->
  let r := run (handleDeleteLink host st linkId) env 0 st in
  calls r = [remove] /\
  final r = setError (u16 "Failed to delete link. Please try again.")
              (meanwhile env 0 (setError [] st)) /\
  summaries (final r) = summaries (meanwhile env 0 (setError [] st)) /\
  (quiet env -> shownSummary (final r) linkId = shownSummary st linkId).
Proof.
  intros Hr remove He. subst remove. unfold handleDeleteLink. rewrite Hr.
  step. rewrite He. step. cbv zeta. do 3 (split; [done|]).
  intros Hq. unfold shownSummary, summary_of. cbn [summaries setError]. by rewrite Hq.
Qed.

End Outcomes.

(** ** The snapshot callback *)

Section Snapshot.

Lemma foldl_summaries_other (fetchedLinks : list Link) (m : gmap jsstring JsVal) x :
  x ∉ id <$> fetchedLinks ->
  foldl (fun m link =>
           if truthy (f_summary (data link))
           then <[id link := f_summary (data link)]> m
           else m) m fetchedLinks !! x = m !! x.
Proof.
  revert m. induction fetchedLinks as [|l ls IH]; intros m Hx; simpl; [done|].
  rewrite fmap_cons in Hx. apply not_elem_of_cons in Hx as [Hne Hx].
  rewrite IH by done. destruct (truthy (f_summary (data l))); [|done].
  by rewrite lookup_insert_ne.
Qed.

Lemma foldl_summaries_member (fetchedLinks : list Link) (m : gmap jsstring JsVal) l :
  NoDup (id <$> fetchedLinks) -> l ∈ fetchedLinks ->
  foldl (fun m link =>
           if truthy (f_summary (data link))
           then <[id link := f_summary (data link)]> m
           else m) m fetchedLinks !! id l =
  if truthy (f_summary (data l)) then Some (f_summary (data l)) else m !! id l.
Proof.
  revert m. induction fetchedLinks as [|l0 ls IH]; intros m Hnd Hl; simpl.
  - by apply elem_of_nil in Hl.
  - rewrite fmap_cons in Hnd. apply NoDup_cons in Hnd as [Hl0 Hnd].
    apply elem_of_cons in Hl as [->|Hl].
    + rewrite foldl_summaries_other by done.
      destruct (truthy (f_summary (data l0))); [|done]. by rewrite lookup_insert_eq.
    + rewrite IH by done.
      destruct (truthy (f_summary (data l))); [done|].
      destruct (truthy (f_summary (data l0))); [|done].
      rewrite lookup_insert_ne; [done|].
      intros E. apply Hl0. rewrite E. by apply list_elem_of_fmap_2.
Qed.

(** X5. A snapshot replaces the list of links by the delivered one, in the
    delivered order, clears the loading flag and the banner, and merges the
    stored summaries into the cache: for a delivered link whose stored
    summary is truthy the cache takes the stored summary (over whatever was
    cached, a placeholder or an error text included); for every other id,
    delivered or not, the cached entry stays.  So a snapshot never removes
    an entry of the cache. *)
Theorem snapshot_merges_summaries fetchedLinks s :
  NoDup (id <$> fetchedLinks) ->
  let s' := onLinksSnapshot fetchedLinks s in
  links s' = fetchedLinks /\ isLoading s' = false /\ error s' = [] /\
  (forall l, l ∈ fetchedLinks -> truthy (f_summary (data l)) = true ->
             summaries s' !! id l = Some (f_summary (data l))) /\
  (forall l, l ∈ fetchedLinks -> truthy (f_summary (data l)) = false ->
             summaries s' !! id l = summaries s !! id l) /\
  (forall x, x ∉ id <$> fetchedLinks -> summaries s' !! x = summaries s !! x) /\
  (forall x, is_Some (summaries s !! x) -> is_Some (summaries s' !! x)) /\
  isSummarizing s' = isSummarizing s.
Proof.
  intros Hnd. cbv zeta. unfold onLinksSnapshot.
  cbn [links isLoading error summaries isSummarizing
       setError setIsLoading setSummaries setLinks].
  do 3 (split; [done|]). split; [|split; [|split; [|split; [|done]]]].
  - intros l Hl Ht. apply lookup_union_Some_l. unfold initialSummaries.
    by rewrite foldl_summaries_member, Ht.
  - intros l Hl Ht. rewrite lookup_union_r; [done|]. unfold initialSummaries.
    by rewrite foldl_summaries_member, Ht.
  - intros x Hx. rewrite lookup_union_r; [done|]. unfold initialSummaries.
    by rewrite foldl_summaries_other.
  - intros x [v Hv]. destruct (initialSummaries fetchedLinks !! x) as [w|] eqn:E.
    + exists w. by apply lookup_union_Some_l.
    + exists v. by rewrite lookup_union_r.
Qed.

End Snapshot.

(** ** The states of a session *)

Section Session.

Variable host : Host.

Lemma not_ready_false s :
  not_ready s = false <-> is_Some (db s) /\ truthy_str (userId s) = true.
Proof.
  unfold not_ready. rewrite orb_false_iff, !negb_false_iff, bool_decide_eq_true.
  done.
Qed.

Lemma subscription_open s :
  is_Some (linksSubscription host s) -> isAuthReady s = true /\ not_ready s = false.
Proof.
  unfold linksSubscription.
  destruct (isAuthReady s), (not_ready s); simpl; intros [q Hq]; done.
Qed.

Ltac fields :=
  cbn [db userId isAuthReady links isLoading error
       setDb setUserId setIsAuthReady setError setIsLoading setLinks
       setNewLinkUrl setNewLinkTitle setShowAddForm setSummaries setIsSummarizing]
    in *.

Lemma reachable_invariant s : reachable host s -> session_invariant s.
Proof.
  induction 1 as [|e s Hs IH He].
  - split; [done|]. intros H. by destruct H.
  - unfold session_invariant in *. rewrite !not_ready_false in *.
    destruct e; simpl in He; unfold apply_event, linksEffect, onLinksSnapshot, onLinksError.
    + fields. intuition (try congruence; eauto).
    + destruct dbSet; fields; intuition (try congruence; eauto).
    + fields. intuition (try congruence; eauto).
    + fields. intuition (try congruence; eauto).
    + fields. destruct uid; [done|]. intuition (try congruence; eauto).
    + destruct signInFailed; fields; intuition (try congruence; eauto).
    + destruct (isAuthReady s) eqn:Ha; cbn [andb];
        [destruct (negb (not_ready s)); [|destruct (negb (truthy_str (userId s)))]|];
        fields; rewrite ?Ha; intuition (try congruence; eauto).
    + apply subscription_open in He. rewrite not_ready_false in He.
      fields. intuition (try congruence; eauto).
    + apply subscription_open in He. rewrite not_ready_false in He.
      fields. intuition (try congruence; eauto).
    + fields. intuition (try congruence; eauto).
    + fields. intuition (try congruence; eauto).
    + fields. intuition (try congruence; eauto).
    + fields. intuition (try congruence; eauto).
    + destruct He; fields; intuition (try congruence; eauto).
Qed.


Ltac step :=
  cbn [run bind mbind try_finally try_catch upd await eval Proc_bind
       final trace outcome negb].

Lemma auth_problem_never_rendered_aux s :
  reachable host s ->
  forall p, render s = MainScreen p ->
            authProblemPanel p = false /\ isAuthReady s = true.
Proof.
  intros [H1 _]%reachable_invariant. unfold render.
  destruct (isAuthReady s) eqn:Ha.
  - cbn. by intros p [= <-].
  - rewrite H1 by done. cbn. by intros p [=].
Qed.

(** X6. In every state a session can reach, the page rendered before the
    auth-ready flag is set is the initial screen, and once the main page is
    rendered the flag is set: the panel "Authentication Problem", shown
    when neither that flag nor the loading flag is set, is never
    rendered. *)
Theorem auth_problem_never_rendered s :
  reachable host s ->
  (isAuthReady s = false -> render s = InitialScreen) /\
  (forall p, render s = MainScreen p ->
             authProblemPanel p = false /\ isAuthReady s = true).
Proof.
  intros [H1 _]%reachable_invariant. unfold render.
  destruct (isAuthReady s) eqn:Ha.
  - split; [done|]. cbn. by intros p [= <-].
  - rewrite H1 by done. cbn. split; [done|]. by intros p [=].
Qed.

(** X7. In every state a session can reach, a link is listed only when the
    session is ready; so a delete or a summary request triggered from a
    card is never refused as not ready: the delete issues its call to the
    document of that link in the subscribed collection, and the summary
    request sends its request. *)
Theorem cards_only_in_ready_session s l :
  reachable host s -> l ∈ links s ->
  ready s /\ isAuthReady s = true /\
  (forall env, calls (run (handleDeleteLink host s (id l)) env 0 s) =
               [DeleteDoc (doc_path (subscribed host s) (id l))]) /\
  (forall env linkTitle linkUrl, exists later,
     calls (run (handleGetSummary host s (id l) linkTitle linkUrl) env 0 s) =
     Fetch apiUrl (payload linkTitle linkUrl) :: later).
Proof.
  intros [_ H2]%reachable_invariant Hl.
  destruct H2 as [Ha Hr]; [by intros E; rewrite E in Hl; apply elem_of_nil in Hl|].
  split; [done|]. split; [done|]. split.
  - intros env. rewrite (doc_path_subscribed host s (id l) Ha Hr).
    unfold handleDeleteLink. rewrite Hr. step. unfold calls.
    by destruct (settle env 0 _) as [e|[]].
  - intros env linkTitle linkUrl. unfold handleGetSummary. rewrite Hr. step.
    unfold calls. cbn [trace fmap list_fmap snd]. by eexists.
Qed.

(** X8. On the main page of a reachable state, the two status panels
    "Loading links..." and "No links saved yet." are never shown
    together, neither is shown beside a card or the error banner, and with
    no card and no banner exactly one of them is shown. *)
Theorem status_panels s p :
  reachable host s -> render s = MainScreen p ->
  (loadingPanel p && emptyPanel p = false)%bool /\
  (cards p <> [] \/ is_Some (errorBanner p) ->
   loadingPanel p = false /\ emptyPanel p = false) /\
  (cards p = [] -> errorBanner p = None ->
   xorb (loadingPanel p) (emptyPanel p) = true).
Proof.
  intros Hs Hp. destruct (auth_problem_never_rendered_aux s Hs p Hp) as [_ Ha].
  revert Hp. unfold render. rewrite Ha. cbn [negb andb]. intros [= <-].
  cbn [loadingPanel emptyPanel cards errorBanner].
  destruct (isLoading s), (links s) as [|l ls], (error s) as [|c m];
    cbn; (split; [done|split]); try done;
    try (intros [?|[? ?]]; done); intros; done.
Qed.

End Session.

(** ** The extractor and the urls of saved links *)

Section SavedLinks.

Lemma word_char_dot w : word_char w = true -> dot w = true.
Proof.
  unfold dot, is_line_terminator.
  destruct (N.eqb_spec w 10) as [->|]; [by vm_compute|].
  destruct (N.eqb_spec w 13) as [->|]; [by vm_compute|].
  destruct (N.eqb_spec w 8232) as [->|]; [by vm_compute|].
  destruct (N.eqb_spec w 8233) as [->|]; [by vm_compute|]. done.
Qed.

Lemma Forall_forallb (p : N -> bool) (l : jsstring) :
  forallb p l = true -> Forall (fun c => p c = true) l.
Proof.
  intros Hl. apply Forall_forall. intros c Hc.
  rewrite forallb_forall in Hl. apply Hl. by apply list_elem_of_In.
Qed.

Lemma is_marker_one_line mk : is_marker mk -> one_line mk.
Proof.
  destruct 1 as [d Hd| |w Hw%word_char_dot| | |];
    try (apply Forall_forallb; reflexivity);
    (apply Forall_app; split; [apply Forall_forallb; reflexivity|];
     apply Forall_cons; split; [done|apply Forall_forallb; reflexivity]).
Qed.

Lemma last_marker_None_intro s :
  (forall pre mk r, ~ marker_at s pre mk r) -> last_marker s = None.
Proof.
  intros H. destruct (last_marker s) as [r|] eqn:E; [|done].
  apply last_marker_Some in E as (pre & mk & Hat & _). by destruct (H pre mk r).
Qed.

Lemma run_of_all p s : Forall (fun c => p c = true) s -> run_of p s = s.
Proof. induction 1 as [|c s Hc _ IH]; simpl; [done|]. by rewrite Hc, IH. Qed.

Lemma id_char_not_delim c : id_char c = true -> not_delim c = true.
Proof.
  unfold id_char, word_char, not_delim.
  destruct (N.eqb_spec c 35) as [->|]; [done|].
  destruct (N.eqb_spec c 38) as [->|]; [done|].
  destruct (N.eqb_spec c 63) as [->|]; [done|]. done.
Qed.

(** [last_marker] of a string with a known prefix. *)
Lemma last_marker_one_line_app (pre u r : jsstring) :
  one_line pre -> last_marker u = Some r -> last_marker (pre ++ u) = Some r.
Proof.
  induction 1 as [|c pre Hc _ IH]; intros H; [done|].
  cbn [app last_marker]. by rewrite Hc, (IH H).
Qed.

Lemma last_marker_scan (p s r : jsstring) :
  last_marker s = None ->
  (forall k, k < length p ->
             snd <$> marker (drop k p ++ s) = None \/
             snd <$> marker (drop k p ++ s) = Some r) ->
  last_marker (p ++ s) = None \/ last_marker (p ++ s) = Some r.
Proof.
  intros Hs. induction p as [|c p IH]; intros H; [by left|].
  cbn [app last_marker].
  pose proof (H 0 ltac:(simpl; lia)) as H0. rewrite drop_0 in H0. cbn [app] in H0.
  destruct IH as [-> | ->].
  { intros k Hk. apply (H (S k)). simpl. lia. }
  - destruct (dot c); cbn [orelse]; exact H0.
  - destruct (dot c); cbn [orelse]; [by right|exact H0].
Qed.

Ltac literals :=
  repeat match goal with |- context [u16 ?x] =>
    let l := eval vm_compute in (u16 x) in change (u16 x) with l end.

Section Inside.

Local Arguments N.eqb : simpl nomatch.
Local Arguments N.leb : simpl nomatch.

(** A marker that begins inside another one, after its first unit: there is
    one, the [v/] of [u/v/], and it ends where the outer one does. *)
Lemma marker_inside (mk s : jsstring) k :
  is_marker mk -> 0 < k < length mk ->
  (forall c t, s <> c :: 47%N :: t) ->
  snd <$> marker (drop k mk ++ s) = None \/
  snd <$> marker (drop k mk ++ s) = Some s.
Proof.
  intros Hmk Hk Hs.
  assert (match s with
          | w :: b :: _ => (47 =? b)%N = false
          | _ => True
          end) as Hs'.
  { destruct s as [|w [|b t]]; [done..|].
    destruct (N.eqb_spec 47 b) as [<-|]; [|done]. by destruct (Hs w t). }
  clear Hs.
  destruct Hmk; revert Hk; literals; cbn [app length]; intros Hk;
    destruct k as [|[|[|[|[|[|[|[|[|k]]]]]]]]]; try lia;
    cbn [drop app]; unfold marker, after_youtu_be, after_u; literals;
    cbn -[word_char dot];
    repeat (match goal with
            | |- context [if N.eqb ?a ?b then _ else _] =>
                destruct (N.eqb a b); cbn -[word_char dot]
            end);
    try (by left); try (by right).
  all: destruct s as [|c0 [|c1 t]]; cbn -[word_char dot] in *; try (by left);
    destruct (word_char c0); rewrite ?Hs'; by left.
Qed.

End Inside.

Lemma last_marker_after_marker (pre mk s : jsstring) :
  one_line pre -> is_marker mk ->
  last_marker s = None -> (forall c t, s <> c :: 47%N :: t) ->
  last_marker (pre ++ mk ++ s) = Some s.
Proof.
  intros Hpre Hmk Hs Hs2. apply last_marker_one_line_app; [done|].
  pose proof (marker_complete mk s Hmk) as Hhead.
  pose proof (is_marker_one_line mk Hmk) as Hline.
  destruct mk as [|c p]; [by apply is_marker_nonempty in Hmk|].
  apply Forall_cons in Hline as [Hc _].
  cbn [app last_marker]. rewrite Hc. cbn [app] in Hhead. rewrite Hhead.
  destruct (last_marker_scan p s s Hs) as [-> | ->]; [|done..].
  intros k Hk. apply (marker_inside (c :: p) s (S k)); [done|simpl; lia|done].
Qed.

Lemma marker_has_slash_or_v_eq mk :
  is_marker mk -> 47%N ∈ mk \/ exists a b, mk = a ++ u16 "v=" ++ b.
Proof.
  destruct 1.
  - left. apply elem_of_app. right. apply elem_of_cons. right.
    vm_compute. by repeat constructor.
  - left. vm_compute. by repeat constructor.
  - left. apply elem_of_app. right. apply elem_of_cons. right.
    vm_compute. by repeat constructor.
  - left. vm_compute. by repeat constructor.
  - right. by exists (u16 "watch?"), [].
  - right. by exists (u16 "&"), [].
Qed.

Lemma id_then_v_eq (id tail x y : jsstring) :
  Forall (fun c => id_char c = true) id ->
  id ++ tail = x ++ u16 "v=" ++ y ->
  (exists x', tail = x' ++ u16 "v=" ++ y) \/ tail = 61%N :: y.
Proof.
  intros Hid. revert x. induction Hid as [|c id Hc Hid IH]; intros x E.
  - left. by exists x.
  - destruct x as [|c' x].
    + injection E as -> E. destruct Hid as [|c1 id Hc1 _].
      * right. exact E.
      * injection E as -> _. by vm_compute in Hc1.
    + injection E as _ E. by apply (IH x).
Qed.

(** An id followed by a tail that begins with a delimiter (or is empty) and
    holds neither [/] nor [v=] holds no marker. *)
Lemma last_marker_id_tail (id tail : jsstring) :
  Forall (fun c => id_char c = true) id ->
  segment_end tail -> 47%N ∉ tail ->
  (forall a b, tail <> a ++ u16 "v=" ++ b) ->
  last_marker (id ++ tail) = None.
Proof.
  intros Hid Hend Hslash Hv. apply last_marker_None_intro.
  intros pre mk r (E & _ & Hmk).
  destruct (marker_has_slash_or_v_eq mk Hmk) as [H47|(a & b & ->)].
  - assert (47%N ∈ id ++ tail) as [H|H]%elem_of_app; [|..|done].
    { rewrite E. apply elem_of_app. right. apply elem_of_app. by left. }
    rewrite Forall_forall in Hid. by specialize (Hid _ H).
  - rewrite <- !app_assoc in E. rewrite (app_assoc pre a) in E.
    apply id_then_v_eq in E as [(x' & E)|E]; [by destruct (Hv x' (b ++ r))| |done].
    by rewrite E in Hend.
Qed.

(** X9. An address made of a prefix without line terminator, one of the
    markers, an 11-unit id over [A-Za-z0-9_-] and a tail that is empty or
    begins with [#], [&] or [?] and holds neither [/] nor [v=], yields
    that id: so do the watch, short and embed addresses of a video, with
    or without scheme and host, and with further query parameters. *)
Theorem marked_id_accepted (pre mk id tail : jsstring) :
  one_line pre -> is_marker mk ->
  Forall (fun c => id_char c = true) id -> length id = 11 ->
  segment_end tail -> 47%N ∉ tail ->
  (forall a b, tail <> a ++ u16 "v=" ++ b) ->
  getYouTubeVideoId (Some (pre ++ mk ++ id ++ tail)) = Some id.
Proof.
  intros Hpre Hmk Hid Hlen Hend Hslash Hv.
  rewrite getYouTubeVideoId_extract. unfold extract.
  rewrite last_marker_after_marker; [|done|done|by apply last_marker_id_tail|].
  - assert (run_of not_delim (id ++ tail) = id) as ->.
    { apply run_of_iff. exists tail. split; [done|]. split; [|done].
      eapply Forall_impl; [exact Hid|]. intros c. apply id_char_not_delim. }
    by rewrite Hlen.
  - intros c t E. destruct id as [|c0 [|c1 id]]; [done..|].
    injection E as _ ->. apply Forall_cons in Hid as [_ Hid].
    apply Forall_cons in Hid as [Hid _]. by vm_compute in Hid.
Qed.

(** The latest marker of the embed address of a string without markers. *)
Lemma last_marker_embed s :
  last_marker s = None ->
  last_marker (u16 "https://www.youtube.com/embed/" ++ s) = Some s.
Proof.
  intros H. literals. cbn [app last_marker]. rewrite H. vm_compute. reflexivity.
Qed.

(** What the extractor returns holds no marker. *)
Lemma extracted_id u v :
  getYouTubeVideoId (Some u) = Some v ->
  last_marker v = None /\ length v = 11 /\ Forall (fun c => not_delim c = true) v.
Proof.
  intros (pre & mk & r & (E & Hpre & Hmk) & Hlast & Hv & _ & Hlen)%getYouTubeVideoId_recognized.
  split; [|done]. apply last_marker_None_intro. intros pre' mk' r' (E' & Hpre' & Hmk').
  assert (marker_at u (pre ++ mk ++ pre') mk' (r' ++ r)) as Hat.
  { split; [|split; [|done]].
    - rewrite E, E'. by rewrite <- !app_assoc.
    - apply Forall_app. split; [done|]. apply Forall_app. split; [|done].
      by apply is_marker_one_line. }
  apply Hlast in Hat. rewrite !length_app in Hat.
  apply is_marker_nonempty in Hmk. destruct mk; [done|]. simpl in Hat. lia.
Qed.

Lemma embed_src_extracted (v : jsstring) (link : Link) :
  last_marker v = None -> length v = 11 ->
  Forall (fun c => not_delim c = true) v ->
  f_videoId (data link) = Some v ->
  getYouTubeVideoId (Some (embedSrc link)) = Some v.
Proof.
  intros Hnone Hlen Hv Hlink.
  rewrite getYouTubeVideoId_extract. unfold extract, embedSrc. rewrite Hlink.
  cbn [hole]. rewrite last_marker_embed by done.
  rewrite run_of_all by done. by rewrite Hlen.
Qed.

(** X10. The address of a card's player leads back to the id it was built
    from: when the extractor returns an id for some address and a link
    holds that id, the extractor returns the same id for the [src] of the
    link's player. *)
Theorem embed_src_round_trip (u v : jsstring) (link : Link) :
  getYouTubeVideoId (Some u) = Some v ->
  f_videoId (data link) = Some v ->
  getYouTubeVideoId (Some (embedSrc link)) = Some v.
Proof.
  intros (Hnone & Hlen & Hv)%extracted_id Hlink. by apply embed_src_extracted.
Qed.

End SavedLinks.

(** ** The documents that the add handler creates *)

Section CreatedLinks.

Variable host : Host.

Ltac step :=
  cbn [run bind mbind try_finally try_catch upd await eval Proc_bind
       final trace outcome negb].

Ltac in_calls H :=
  unfold calls in H; cbn [trace fmap list_fmap snd] in H;
  repeat (apply elem_of_cons in H as [H|H]; [try discriminate H|]);
  try (by apply elem_of_nil in H).

(** X11. Every document that the add handler creates holds the url and the
    title as they were typed (the white space around them included: the
    trimmed values serve the validation only), neither of them blank, the
    user of the session, no summary, and as video id what the extractor
    returns for the typed url: 11 units, none of them [#], [&] or [?]; and
    the address of the player of a card built from that document leads the
    extractor back to the same id. *)
Theorem created_document st env p f :
  AddDoc p f ∈ calls (run (handleAddLink host st) env 0 st) ->
  blank (newLinkUrl st) = false /\ blank (newLinkTitle st) = false /\
  f_url f = newLinkUrl st /\ f_title f = newLinkTitle st /\
  f_userId f = userId st /\ truthy_str (userId st) = true /\
  f_summary f = JNull /\
  exists v, f_videoId f = Some v /\
            getYouTubeVideoId (Some (newLinkUrl st)) = Some v /\
            length v = 11 /\ Forall (fun c => not_delim c = true) v /\
            forall linkId,
              getYouTubeVideoId (Some (embedSrc (mkLink linkId f))) = Some v.
Proof.
  unfold handleAddLink.
  destruct (blank (newLinkUrl st)); [intros H; by in_calls H|].
  destruct (blank (newLinkTitle st)); [intros H; by in_calls H|].
  cbn [orb]. destruct (not_ready st) eqn:Hr; [intros H; by in_calls H|].
  apply not_ready_false in Hr as [_ Hu]. cbv zeta.
  destruct (getYouTubeVideoId (Some (newLinkUrl st))) as [v|] eqn:Hv;
    [|intros H; by in_calls H].
  destruct (extracted_id _ _ Hv) as (Hnone & Hlen & Hnd).
  destruct v as [|c v]; [done|]. cbn [truthy_str negb]. step.
  destruct (settle env 0 _) as [e|[]]; step; intros H; in_calls H;
    injection H as -> ->; cbn [f_url f_title f_userId f_summary f_videoId];
    (do 7 (split; [done|]); eexists; split; [done|]; do 3 (split; [done|]);
     intros linkId; by apply (embed_src_extracted (c :: v))).
Qed.

End CreatedLinks.

(** ** The label of the summary button after a request *)

Section Labels.

Variable host : Host.

Ltac step :=
  cbn [run bind mbind try_finally try_catch upd await eval Proc_bind
       final trace outcome negb].

Ltac lookups :=
  unfold summaryButtonDisabled, summarizing, summary_of, shownSummary;
  cbn [summaries isSummarizing setSummaries setIsSummarizing setError];
  rewrite ?lookup_insert_eq, ?lookup_delete_eq.

(** X12. When the condition of line 252 fails on a success response, the
    fixed message is displayed as the summary of the link and, the message
    being neither the placeholder nor a text that begins with "Error:",
    the enabled button reads "Regenerate Summary", the label of a link
    that has a summary. *)
Theorem unexpected_response_offers_regenerate
    st linkId linkTitle linkUrl env resp body :
  ready st ->
  settle env 0 (Fetch apiUrl (payload linkTitle linkUrl)) = inr resp ->
  ok resp = true ->
  settle env 1 (ResponseJson resp) = inr body ->
  has_parts host body = inr false ->
  let s' := final (run (handleGetSummary host st linkId linkTitle linkUrl) env 0 st) in
  shownSummary s' linkId = Some (JStr COULD_NOT) /\
  summaryButtonDisabled s' linkId = false /\
  summaryButtonLabel s' linkId = inr (u16 "Regenerate Summary").
Proof.
  intros Hr Hf Hok Hj Hb. unfold handleGetSummary. rewrite Hr.
  step. rewrite Hf. step. rewrite Hok. step. rewrite Hj. step. rewrite Hb. step.
  cbv zeta. unfold summaryButtonLabel, shownSummary. lookups.
  split; [done|]. split; [done|]. vm_compute. reflexivity.
Qed.


Lemma renderCards_lookup s cards i link :
  renderCards s = Some cards -> links s !! i = Some link ->
  exists card, renderCard s link = Some card /\ cards !! i = Some card.
Proof.
  unfold renderCards. intros H%mapM_Some Hi.
  destruct (Forall2_lookup_l _ _ _ _ _ H Hi) as (card & Hc & Hcard). eauto.
Qed.

(** X14. While a summary request of a link is in flight, the card of the
    link is locked.  In the state left to render at every suspension of
    the handler (the request, the reading of the body, the update of the
    store) the card is rendered exactly when the cached summary of the link
    is a valid child, and then its summary button is disabled and reads
    "Getting Summary..." and its delete button is disabled; so it is in
    the list of cards whenever that list is rendered.  This holds as long
    as no other event writes the flag of that link during the waits.  At
    the request the cached summary is the placeholder, so the card is
    rendered; at the update of the store it is the value found in the
    payload's [text], so the card is rendered unless that value is a plain
    object (or an array that holds one), and then the page is not
    rendered. *)
Theorem card_locked_during_request st link linkTitle linkUrl env :
  ready st ->
  (forall k s, isSummarizing (meanwhile env k s) !! id link =
               isSummarizing s !! id link) ->
  let r := run (handleGetSummary host st (id link) linkTitle linkUrl) env 0 st in
  let locked s :=
    mkCard (embedSrc link) (shownSummary s (id link)) true
      (u16 "Getting Summary...") true in
  Forall (fun x =>
            renderCard x.1 link =
              (if valid_child (summary_of x.1 (id link))
               then Some (locked x.1) else None) /\
            (forall cards i,
               renderCards x.1 = Some cards -> links x.1 !! i = Some link ->
               cards !! i = Some (locked x.1)))
         (trace r) /\
  (exists s0 later,
     trace r = (s0, Fetch apiUrl (payload linkTitle linkUrl)) :: later /\
     summary_of s0 (id link) = JStr GENERATING /\
     renderCard s0 link = Some (locked s0)) /\
  (forall s2 p v, (s2, UpdateDoc p v) ∈ trace r ->
     summary_of s2 (id link) = v /\
     (valid_child v = false ->
      renderCard s2 link = None /\
      (link ∈ links s2 -> renderCards s2 = None))).
Proof.
  intros Hr Hm. cbv zeta. set (linkId := id link) in *.
  assert (forall s, isSummarizing s !! linkId = Some true ->
                    renderCard s link =
                    if valid_child (summary_of s linkId)
                    then Some (mkCard (embedSrc link) (shownSummary s linkId) true
                                 (u16 "Getting Summary...") true)
                    else None) as Hcard.
  { intros s Hs. unfold renderCard, summaryButtonLabel, deleteButtonDisabled,
      summaryButtonDisabled, summarizing. fold linkId. rewrite Hs. cbn [default].
      by rewrite orb_true_r. }
  assert (forall s, isSummarizing s !! linkId = Some true ->
            renderCard s link =
              (if valid_child (summary_of s linkId)
               then Some (mkCard (embedSrc link) (shownSummary s linkId) true
                            (u16 "Getting Summary...") true)
               else None) /\
            (forall cards i,
               renderCards s = Some cards -> links s !! i = Some link ->
               cards !! i = Some (mkCard (embedSrc link) (shownSummary s linkId) true
                                    (u16 "Getting Summary...") true))) as Hlock.
  { intros s Hs. split; [by apply Hcard|]. intros cards i Hcards Hi.
    destruct (renderCards_lookup _ _ _ _ Hcards Hi) as (card & Hc & ->).
    rewrite (Hcard s Hs) in Hc. by destruct (valid_child _). }
  assert (forall s g, isSummarizing (setSummaries g s) = isSummarizing s) as Hsum by done.
  assert (forall s g v, summary_of
            (setSummaries (fun prev => <[linkId := v]> prev)
               (setIsSummarizing g s)) linkId = v) as Hplace.
  { intros s g v. unfold summary_of. cbn [summaries setSummaries].
    by rewrite lookup_insert_eq. }
  assert (isSummarizing
            (setSummaries (fun prev => <[linkId := JStr GENERATING]> prev)
               (setIsSummarizing (fun prev => <[linkId := true]> prev) st))
          !! linkId = Some true) as Hfirst.
  { rewrite Hsum. cbn [isSummarizing setIsSummarizing]. by rewrite lookup_insert_eq. }
  assert (isSummarizing
            (meanwhile env 0
               (setSummaries (fun prev => <[linkId := JStr GENERATING]> prev)
                  (setIsSummarizing (fun prev => <[linkId := true]> prev) st)))
          !! linkId = Some true) as H0 by (by rewrite Hm).
  unfold handleGetSummary. rewrite Hr. step.
  split; [|split].
  - apply Forall_cons. split; [by apply Hlock|].
    destruct (settle env 0 _) as [e|resp]; step; [constructor|].
    destruct (ok resp); step.
    + apply Forall_cons. split; [by apply Hlock|].
      destruct (settle env 1 (ResponseJson resp)) as [e|body]; step; [constructor|].
      destruct (has_parts host body) as [e|[|]]; step; [constructor| |constructor].
      destruct (first_text body) as [e|v]; step; [constructor|].
      apply Forall_cons. split.
      * apply Hlock. cbn [fst]. by rewrite Hsum, Hm.
      * destruct (settle env 2 _) as [e|[]]; step; constructor.
    + apply Forall_cons. split; [by apply Hlock|].
      destruct (settle env 1 (ResponseJson resp)) as [e|body]; step; [constructor|].
      destruct (to_string _ _) as [e|detail]; step; constructor.
  - eexists _, _. split; [done|]. split; [apply Hplace|].
    rewrite Hcard by done. rewrite Hplace. unfold shownSummary. by rewrite Hplace.
  - intros s2 p v H.
    repeat first
      [ by apply elem_of_nil in H
      | apply elem_of_cons in H as [H|H]; [try discriminate H|]
      | progress cbn [run bind mbind try_finally try_catch upd await eval Proc_bind
                      final trace outcome negb] in H
      | match type of H with
        | context [settle env ?n ?c] => destruct (settle env n c) as [?|?]
        | context [ok ?r] => destruct (ok r)
        | context [has_parts host ?b] => destruct (has_parts host b) as [?|[|]]
        | context [first_text ?b] => destruct (first_text b) as [?|?]
        | context [to_string ?f ?w] => destruct (to_string f w) as [?|?]
        end ].
    all: injection H as -> _ ->.
    all: match goal with
         | |- summary_of (setSummaries _ ?s) _ = ?j /\ _ =>
             assert (summary_of
                       (setSummaries (fun prev => <[linkId := j]> prev) s) linkId = j)
               as Hv by (unfold summary_of; cbn [summaries setSummaries];
                         by rewrite lookup_insert_eq);
             assert (renderCard (setSummaries (fun prev => <[linkId := j]> prev) s) link =
                     if valid_child j
                     then Some (mkCard (embedSrc link)
                                  (shownSummary
                                     (setSummaries (fun prev => <[linkId := j]> prev) s)
                                     linkId) true (u16 "Getting Summary...") true)
                     else None) as Hc
               by (rewrite Hcard; [by rewrite Hv|by rewrite Hsum, Hm])
         end.
    all: split; [exact Hv|]; intros Hbad; rewrite Hbad in Hc; split; [exact Hc|].
    all: intros [i Hi]%list_elem_of_lookup_1.
    all: match goal with
         | |- renderCards ?s = None =>
             destruct (renderCards s) as [cards|] eqn:Hcards; [|done];
             destruct (renderCards_lookup _ _ _ _ Hcards Hi) as (card & Hcd & _);
             by rewrite Hc in Hcd
         end.
Qed.

End Labels.

(** ** Instances

    Each property above that has a hypothesis, at the data of [Sample] and
    [Scenario]. *)

Lemma without_v (tail : jsstring) :
  118%N ∉ tail -> forall a b, tail <> a ++ u16 "v=" ++ b.
Proof.
  intros H a b E. apply H. rewrite E. apply elem_of_app. right.
  apply elem_of_app. left. vm_compute. by left.
Qed.

Lemma listed_reachable : reachable Sample.host Scenario.listed.
Proof.
  unfold Scenario.listed, Scenario.events. cbn [foldl].
  apply (reach_event _ (LinksSnapshot _)).
  - apply (reach_event _ LinksEffect); [|exact I].
    apply (reach_event _ (SignedIn _)); [|by vm_compute].
    apply (reach_event _ InitStarted); [|exact I].
    apply reach_initial.
  - vm_compute. by eexists.
Qed.

Lemma handlers_keep_session_witness :
  let env := Sample.env 200 JNull (inr tt) in
  (forall k s', session_part (meanwhile env k s') = session_part s') /\
  session_part
    (final (run (handleDeleteLink Sample.host Scenario.listed Sample.link) env 0
               Scenario.listed)) = session_part Scenario.listed.
Proof.
  cbv zeta. split; [intros; reflexivity|].
  exact (proj1 (proj1 (proj2 (handlers_keep_session
    Sample.host Scenario.listed Sample.link Sample.title Sample.url
    (Sample.env 200 JNull (inr tt)) 0 Scenario.listed (fun _ _ => eq_refl))))).
Defined.

Lemma handlers_leave_other_links_witness :
  let env := Sample.env 200 (generation_response (u16 "S") [] []) (inr tt) in
  let other := u16 "L2" in
  other <> Sample.link /\
  (forall k s', link_part other (meanwhile env k s') = link_part other s') /\
  link_part other
    (final (run (handleGetSummary Sample.host Sample.st0 Sample.link Sample.title
                   Sample.url) env 0 Sample.st0)) = link_part other Sample.st0.
Proof.
  cbv zeta.
  assert (u16 "L2" <> Sample.link) as Hne by (by vm_compute).
  split; [exact Hne|]. split; [intros; reflexivity|].
  exact (proj1 (proj2 (handlers_leave_other_links
    Sample.host Sample.st0 Sample.link Sample.title Sample.url (u16 "L2")
    (Sample.env 200 (generation_response (u16 "S") [] []) (inr tt)) 0 Sample.st0
    Hne (fun _ _ => eq_refl)))).
Defined.

Lemma summary_request_outcomes_witness :
  let r := run (handleGetSummary Sample.host Sample.st0 Sample.link Sample.title
                  Sample.url)
               (Sample.env 200 (generation_response (u16 "S") [] []) (inr tt))
               0 Sample.st0 in
  ready Sample.st0 /\
  exists later, calls r = Fetch apiUrl (payload Sample.title Sample.url) :: later /\
                length later <= 2.
Proof.
  cbv zeta. split; [reflexivity|].
  destruct (summary_request_outcomes
    Sample.host Sample.st0 Sample.link Sample.title Sample.url
    (Sample.env 200 (generation_response (u16 "S") [] []) (inr tt)) eq_refl)
    as [(m & _ & _ & [E|[(resp & E)|(resp & v & e & E & _)]])
       |[(resp & _ & E)|(resp & body & v & _ & _ & _ & E & _)]];
    rewrite E; eexists; (split; [reflexivity|simpl; lia]).
Defined.

Lemma delete_failure_keeps_summary_witness :
  let env := Sample.env 200 JNull (inl Sample.offline) in
  ready Sample.summarized /\
  settle env 0
    (DeleteDoc (u16 "artifacts/" ++ appId Sample.host ++ u16 "/users/"
                ++ hole (userId Sample.summarized) ++ u16 "/laterTubeLinks/"
                ++ Sample.link)) = inl Sample.offline /\
  summaries (final (run (handleDeleteLink Sample.host Sample.summarized Sample.link)
                        env 0 Sample.summarized)) =
  summaries (meanwhile env 0 (setError [] Sample.summarized)).
Proof.
  cbv zeta. split; [reflexivity|]. split; [reflexivity|].
  exact (proj1 (proj2 (proj2 (delete_failure_keeps_summary
    Sample.host Sample.summarized Sample.link
    (Sample.env 200 JNull (inl Sample.offline)) Sample.offline eq_refl eq_refl)))).
Defined.

Lemma snapshot_merges_summaries_witness :
  NoDup (id <$> [Scenario.saved]) /\
  links (onLinksSnapshot [Scenario.saved] Sample.summarized) = [Scenario.saved].
Proof.
  assert (NoDup (id <$> [Scenario.saved])) as Hnd by apply NoDup_singleton.
  split; [exact Hnd|].
  exact (proj1 (snapshot_merges_summaries [Scenario.saved] Sample.summarized Hnd)).
Defined.

Lemma auth_problem_never_rendered_witness :
  reachable Sample.host Scenario.listed /\
  (isAuthReady Scenario.listed = false -> render Scenario.listed = InitialScreen).
Proof.
  split; [exact listed_reachable|].
  exact (proj1 (auth_problem_never_rendered Sample.host Scenario.listed
                  listed_reachable)).
Defined.

Lemma cards_only_in_ready_session_witness :
  reachable Sample.host Scenario.listed /\
  Scenario.saved ∈ links Scenario.listed /\
  ready Scenario.listed.
Proof.
  assert (Scenario.saved ∈ links Scenario.listed) as Hin by (vm_compute; by left).
  split; [exact listed_reachable|]. split; [exact Hin|].
  exact (proj1 (cards_only_in_ready_session Sample.host Scenario.listed
                  Scenario.saved listed_reachable Hin)).
Defined.

Lemma status_panels_witness :
  let p := mkPage None true false false false false [Scenario.saved] in
  reachable Sample.host Scenario.listed /\
  render Scenario.listed = MainScreen p /\
  (loadingPanel p && emptyPanel p = false)%bool.
Proof.
  cbv zeta. split; [exact listed_reachable|]. split; [reflexivity|].
  exact (proj1 (status_panels Sample.host Scenario.listed
    (mkPage None true false false false false [Scenario.saved])
    listed_reachable eq_refl)).
Defined.

Lemma marked_id_accepted_witness :
  let pre := u16 "https://www.youtube.com/" in
  let mk := u16 "watch?v=" in
  let tail := u16 "&t=42s" in
  one_line pre /\ is_marker mk /\
  Forall (fun c => id_char c = true) Sample.video /\ length Sample.video = 11 /\
  segment_end tail /\ (47%N ∉ tail) /\
  (forall a b, tail <> a ++ u16 "v=" ++ b) /\
  getYouTubeVideoId (Some (pre ++ mk ++ Sample.video ++ tail)) = Some Sample.video.
Proof.
  cbv zeta.
  assert (one_line (u16 "https://www.youtube.com/")) as H1
    by (by apply Forall_forallb).
  assert (Forall (fun c => id_char c = true) Sample.video) as H2
    by (by apply Forall_forallb).
  assert (47%N ∉ u16 "&t=42s") as H3
    by (apply (bool_decide_unpack _); by vm_compute).
  assert (forall a b, u16 "&t=42s" <> a ++ u16 "v=" ++ b) as H4
    by (apply without_v, (bool_decide_unpack _); by vm_compute).
  split; [exact H1|]. split; [exact marker_watch|]. split; [exact H2|].
  split; [reflexivity|]. split; [reflexivity|]. split; [exact H3|].
  split; [exact H4|].
  exact (marked_id_accepted (u16 "https://www.youtube.com/") (u16 "watch?v=")
           Sample.video (u16 "&t=42s") H1 marker_watch H2 eq_refl eq_refl H3 H4).
Defined.

Lemma embed_src_round_trip_witness :
  getYouTubeVideoId (Some Sample.url) = Some Sample.video /\
  f_videoId (data Scenario.saved) = Some Sample.video /\
  getYouTubeVideoId (Some (embedSrc Scenario.saved)) = Some Sample.video.
Proof.
  assert (getYouTubeVideoId (Some Sample.url) = Some Sample.video) as H
    by (vm_compute; reflexivity).
  split; [exact H|]. split; [reflexivity|].
  exact (embed_src_round_trip Sample.url Sample.video Scenario.saved H eq_refl).
Defined.

Lemma created_document_witness :
  let st := Sample.form Sample.url (u16 " Rick ") in
  let f := mkLinkFields Sample.url (u16 " Rick ") (Some Sample.video)
             (Some Sample.user) JNull in
  let p := u16 "artifacts/default-laterlink-app/users/uid1/laterTubeLinks" in
  AddDoc p f ∈ calls (run (handleAddLink Sample.host st)
                         (Sample.env 200 JNull (inr tt)) 0 st) /\
  f_title f = newLinkTitle st.
Proof.
  cbv zeta.
  assert (AddDoc (u16 "artifacts/default-laterlink-app/users/uid1/laterTubeLinks")
            (mkLinkFields Sample.url (u16 " Rick ") (Some Sample.video)
               (Some Sample.user) JNull)
          ∈ calls (run (handleAddLink Sample.host
                          (Sample.form Sample.url (u16 " Rick ")))
                       (Sample.env 200 JNull (inr tt)) 0
                       (Sample.form Sample.url (u16 " Rick ")))) as H
    by (vm_compute; by left).
  split; [exact H|].
  exact (proj1 (proj2 (proj2 (proj2 (created_document Sample.host _ _ _ _ H))))).
Defined.

Lemma unexpected_response_witness :
  let env := Sample.env 200 (JObj []) (inr tt) in
  let s' := final (run (handleGetSummary Sample.host Sample.st0 Sample.link
                          Sample.title Sample.url) env 0 Sample.st0) in
  ready Sample.st0 /\
  settle env 0 (Fetch apiUrl (payload Sample.title Sample.url)) = inr (mkResponse 200) /\
  ok (mkResponse 200) = true /\
  settle env 1 (ResponseJson (mkResponse 200)) = inr (JObj []) /\
  has_parts Sample.host (JObj []) = inr false /\
  summaryButtonLabel s' Sample.link = inr (u16 "Regenerate Summary").
Proof.
  cbv zeta. do 5 (split; [reflexivity|]).
  exact (proj2 (proj2 (unexpected_response_offers_regenerate
    Sample.host Sample.st0 Sample.link Sample.title Sample.url
    (Sample.env 200 (JObj []) (inr tt)) (mkResponse 200) (JObj [])
    eq_refl eq_refl eq_refl eq_refl eq_refl))).
Defined.


Lemma card_locked_during_request_witness :
  let env := Sample.env 200 (generation_response (u16 "S") [] []) (inr tt) in
  ready Scenario.listed /\
  (forall k s, isSummarizing (meanwhile env k s) !! id Scenario.saved =
               isSummarizing s !! id Scenario.saved) /\
  exists s0 later,
    trace (run (handleGetSummary Sample.host Scenario.listed (id Scenario.saved)
                  Sample.title Sample.url) env 0 Scenario.listed) =
      (s0, Fetch apiUrl (payload Sample.title Sample.url)) :: later /\
    summary_of s0 (id Scenario.saved) = JStr GENERATING /\
    renderCard s0 Scenario.saved =
      Some (mkCard (embedSrc Scenario.saved) (shownSummary s0 (id Scenario.saved)) true
              (u16 "Getting Summary...") true).
Proof.
  cbv zeta. split; [reflexivity|]. split; [intros; reflexivity|].
  exact (proj1 (proj2 (card_locked_during_request
    Sample.host Scenario.listed Scenario.saved Sample.title Sample.url
    (Sample.env 200 (generation_response (u16 "S") [] []) (inr tt))
    eq_refl (fun _ _ => eq_refl)))).
Defined.
